(** * rosdep: sources list cache and the jfrog source installer

    A shallow embedding of [rosdep2/sources_list.py] and
    [rosdep2/platforms/jfrog.py], with the properties of the update
    orchestrator, the tag matcher, the view loader, the manifest resolver
    and the install pipeline stated over it.

    Python values are embedded as follows: [str] is [string], a list is a
    [list], a [set] is a [gset], a [dict] used as a map is a [gmap], an
    exception is a constructor of [exn] carried by [result]. *)

From Stdlib Require Import Ascii.
From stdpp Require Import base option list strings gmap sets sorting pretty.

Local Open Scope stdpp_scope.

(** ** Python values *)

Module Py.

(** Exceptions raised through the two modules. *)
Inductive exn : Type :=
| ValueError (msg : string)
| InvalidData (msg : string) (origin : option string)
| DownloadFailure (msg : string)
| DownloadFailed (msg : string)
| InvalidRdmanifest (msg : string)
| InstallFailed (installer : string) (msg : string)
| ResourceNotFound (name : string)
| IndexError
| IOError (msg : string)
| OSError (msg : string)
| ReadError (msg : string)
| YAMLError (msg : string)
| AssertionError
| HTTPException (msg : string)
| SocketError (msg : string).

Inductive result (A : Type) : Type :=
| Ok (a : A)
| Raise (e : exn).
Global Arguments Ok {A} a.
Global Arguments Raise {A} e.

Definition bind {A B} (r : result A) (k : A → result B) : result B :=
  match r with
  | Ok a => k a
  | Raise e => Raise e
  end.

Definition is_ok {A} (r : result A) : bool :=
  match r with Ok _ => true | Raise _ => false end.

(** [bool(s)] for a string. *)
Definition truthy (s : string) : bool :=
  match s with "" => false | _ => true end.

(** [bool(x)] for a value that is [None] or a string. *)
Definition truthy_opt (o : option string) : bool :=
  match o with Some s => truthy s | None => false end.

(** [any(iterable)] over strings. *)
Definition any (l : list string) : bool := existsb truthy l.

(** [s.split(sep)] for a one-character separator: the result is never
    empty, and two adjacent separators enclose an empty string. *)
Fixpoint split (sep : ascii) (s : string) : list string :=
  match s with
  | "" => [""]
  | String c r =>
      if decide (c = sep) then "" :: split sep r
      else match split sep r with
           | h :: t => String c h :: t
           | [] => [String c ""]
           end
  end.

(** [sep.join(l)] *)
Fixpoint join (sep : string) (l : list string) : string :=
  match l with
  | [] => ""
  | [x] => x
  | x :: r => x +:+ sep +:+ join sep r
  end.

Fixpoint lstrip (s : string) : string :=
  match s with
  | String c r => if Ascii.is_space c then lstrip r else s
  | "" => ""
  end.

Fixpoint rstrip (s : string) : string :=
  match s with
  | "" => ""
  | String c r =>
      match rstrip r with
      | "" => if Ascii.is_space c then "" else String c ""
      | r' => String c r'
      end
  end.

(** [s.strip()] *)
Definition strip (s : string) : string := lstrip (rstrip s).

(** [s.startswith(p)] *)
Fixpoint startswith (p s : string) : bool :=
  match p, s with
  | "", _ => true
  | String a p', String b s' => bool_decide (a = b) && startswith p' s'
  | String _ _, "" => false
  end.

(** [s.endswith(p)] *)
Definition endswith (p s : string) : bool :=
  startswith (String.rev p) (String.rev s).

Definition nl : string := String "010"%char "".
Definition tab : string := String "009"%char "".

(** [l[-n:]] *)
Definition last_n {A} (n : nat) (l : list A) : list A :=
  drop (length l - n) l.

End Py.

Import Py.

(** ** [os.path] on POSIX *)

Module OsPath.

(** [os.path.join(a, b)] *)
Definition join (a b : string) : string :=
  if startswith "/" b then b
  else if bool_decide (a = "") || endswith "/" a then a +:+ b
  else a +:+ "/" +:+ b.

(** Index just past the last ["/"] of [s], counted from the front. *)
Fixpoint rindex_slash (s : string) : option nat :=
  match s with
  | "" => None
  | String c r =>
      match rindex_slash r with
      | Some i => Some (S i)
      | None => if decide (c = "/"%char) then Some 1 else None
      end
  end.

Fixpoint str_take (n : nat) (s : string) : string :=
  match n, s with
  | S n', String c r => String c (str_take n' r)
  | _, _ => ""
  end.

Fixpoint all_slashes (s : string) : bool :=
  match s with
  | "" => true
  | String c r => bool_decide (c = "/"%char) && all_slashes r
  end.

(** [os.path.dirname(p)]: the head up to the last slash, with trailing
    slashes removed unless the head consists of slashes only. *)
Definition dirname (p : string) : string :=
  match rindex_slash p with
  | None => ""
  | Some i =>
      let head := str_take i p in
      if all_slashes head then head
      else String.rev (
        (fix drop_slashes (s : string) : string :=
           match s with
           | String c r => if decide (c = "/"%char) then drop_slashes r else s
           | "" => ""
           end) (String.rev head))
  end.

End OsPath.

(** ** The local file system

    Files are a map from path to contents, directories a set of paths. *)

Module Fs.

Record t : Type := mk {
  files : gmap string string;
  dirs : gset string
}.

Definition empty : t := mk ∅ ∅.

(** [os.path.exists(p)] *)
Definition path_exists (p : string) (fs : t) : bool :=
  bool_decide (p ∈ dirs fs) || bool_decide (is_Some (files fs !! p)).

(** [os.makedirs(d)] *)
Definition makedirs (d : string) (fs : t) : t :=
  mk (files fs) ({[d]} ∪ dirs fs).

Definition enoent (p : string) : string :=
  "[Errno 2] No such file or directory: '" +:+ p +:+ "'".

(** [open(p, 'r').read()] *)
Definition read (p : string) (fs : t) : result string :=
  match files fs !! p with
  | Some contents => Ok contents
  | None => Raise (IOError (enoent p))
  end.

(** [open(p, 'w').write(contents)] *)
Definition write (p contents : string) (fs : t) : t :=
  mk (<[p := contents]> (files fs)) (dirs fs).

(** The name of [p] inside directory [d], when [p] lies directly in it. *)
Definition entry_of (d p : string) : option string :=
  let prefix := if endswith "/" d then d else d +:+ "/" in
  if startswith prefix p then
    let name := String.rev (OsPath.str_take (String.length p - String.length prefix) (String.rev p)) in
    match split "/" name with
    | [n] => if truthy n then Some n else None
    | _ => None
    end
  else None.

Definition enotdir (p : string) : string :=
  "[Errno 20] Not a directory: '" +:+ p +:+ "'".

(** [os.listdir(d)]: the entries of [d] in the arbitrary order of the
    underlying store; [OSError] when [d] is a file or does not exist. *)
Definition listdir (d : string) (fs : t) : result (list string) :=
  if bool_decide (d ∈ dirs fs) then
    Ok (omap (entry_of d) (elements (dom (files fs) ∪ dirs fs)))
  else if bool_decide (is_Some (files fs !! d)) then Raise (OSError (enotdir d))
  else Raise (OSError (enoent d)).

Definition under (d p : string) : bool :=
  bool_decide (p = d) || startswith (d +:+ "/") p.

(** [shutil.rmtree(d)]: fails when [d] is not an existing directory,
    otherwise removes [d] and everything below it. *)
Definition rmtree (d : string) (fs : t) : result unit * t :=
  if bool_decide (d ∈ dirs fs) then
    (Ok (), mk (filter (λ kv, under d kv.1 = false) (files fs))
               (filter (λ p, under d p = false) (dirs fs)))
  else (Raise (OSError (enoent d)), fs).

End Fs.

(** ** rosdep2/sources_list.py *)

Module SourcesList.

(** A parsed YAML document, as far as this module looks into it: only
    whether the top level is a dictionary matters. *)
#[warnings="-register-all"]
Inductive yaml : Type :=
| YNull
| YScalar (s : string)
| YSeq (items : list yaml)
| YMap (entries : list (string * yaml)).

(** The fields of [urlparse.urlparse(url)] that are read. *)
Record ParseResult : Type := { scheme : string; netloc : string; path : string }.

(** [urllib2.urlopen(url)] followed by [read()]: the body, or the
    exception that opening the URL or reading the answer raises.
    [urllib2] raises [URLError] for what goes wrong up to the sending of
    the request.  The exceptions of [httplib] (a port that is no number,
    a bad status line, an incomplete read) and [socket.timeout] or
    [socket.error] while the answer is read are no subclasses of it. *)
Inductive fetched : Type :=
| Body (text : string)
| URLError (reason : string)
| HttpFailure (msg : string)
| SocketFailure (msg : string).

(** [yaml.safe_load(text)]: the document, or [YAMLError]. *)
Inductive loaded : Type :=
| Loaded (data : yaml)
| YamlError (msg : string).

(** [download_gbpdistro_as_rosdep_data(url)] of [gbpdistro_support]:
    rosdep data, or [DownloadFailure]. *)
Inductive gbp_outcome : Type :=
| GbpData (data : yaml)
| GbpFailure (msg : string).

(** The collaborators outside this module.  The network answers may
    depend on the requests made so far. *)
Class Env : Type := {
  urlparse : string → ParseResult;
  sha1_hexdigest : string → string;
  yaml_safe_load : string → loaded;
  yaml_safe_dump : yaml → string;
  urlopen : list string → string → fetched;
  download_gbpdistro_as_rosdep_data : list string → string → gbp_outcome;
  ros_home : string
}.

Definition SOURCES_LIST_DIR : string := "sources.list.d".
Definition SOURCES_CACHE_DIR : string := "sources.cache".

Definition get_sources_list_dir : string :=
  OsPath.join (OsPath.join "/etc/ros" "rosdep") SOURCES_LIST_DIR.

Definition get_sources_cache_dir `{Env} : string :=
  OsPath.join (OsPath.join ros_home "rosdep") SOURCES_CACHE_DIR.

Definition TYPE_YAML : string := "yaml".
Definition TYPE_GBPDISTRO : string := "gbpdistro".
Definition VALID_TYPES : list string := [TYPE_YAML; TYPE_GBPDISTRO].

(** The two members of [VALID_TYPES]; the constructor of [DataSource]
    rejects every other string. *)
Inductive source_type : Type := Yaml | GbpDistro.

Definition type_of_string (s : string) : option source_type :=
  if bool_decide (s = TYPE_YAML) then Some Yaml
  else if bool_decide (s = TYPE_GBPDISTRO) then Some GbpDistro
  else None.

Definition string_of_type (t : source_type) : string :=
  match t with Yaml => TYPE_YAML | GbpDistro => TYPE_GBPDISTRO end.

Record DataSource : Type := {
  ds_type : source_type;
  ds_url : string;
  ds_tags : list string;
  ds_origin : option string
}.

Global Instance source_type_eq_dec : EqDecision source_type.
Proof. solve_decision. Defined.
Global Instance DataSource_eq_dec : EqDecision DataSource.
Proof. solve_decision. Defined.

(** [DataSource.__init__] *)
Definition DataSource_init `{Env} (type_ url : string) (tags : list string)
    (origin : option string) : result DataSource :=
  match type_of_string type_ with
  | None => Raise (ValueError ("type must be one of [" +:+ join "," VALID_TYPES +:+ "]"))
  | Some t =>
      let parsed := urlparse url in
      if negb (truthy (scheme parsed)) || negb (truthy (netloc parsed))
         || bool_decide (path parsed ∈ [""; "/"])
      then Raise (ValueError
             ("url must be a fully-specified URL with scheme, hostname, and path: " +:+ url))
      else Ok {| ds_type := t; ds_url := url; ds_tags := tags; ds_origin := origin |}
  end.

Record CachedDataSource : Type := {
  source : DataSource;
  rosdep_data : option yaml
}.

(** [CachedDataSource.__init__] *)
Definition CachedDataSource_init `{Env} (type_ url : string) (tags : list string)
    (data : option yaml) (origin : option string) : result CachedDataSource :=
  bind (DataSource_init type_ url tags origin)
       (λ s, Ok {| source := s; rosdep_data := data |}).

(** The attributes shared by [DataSource] and [CachedDataSource]: the
    second is not a subclass of the first, it answers to the same names. *)
Class DataSourceLike (A : Type) : Type := {
  type : A → source_type;
  url : A → string;
  tags : A → list string;
  origin : A → option string
}.

Global Instance DataSource_like : DataSourceLike DataSource :=
  {| type := ds_type; url := ds_url; tags := ds_tags; origin := ds_origin |}.

Global Instance CachedDataSource_like : DataSourceLike CachedDataSource :=
  {| type := λ c, ds_type (source c); url := λ c, ds_url (source c);
     tags := λ c, ds_tags (source c); origin := λ c, ds_origin (source c) |}.

Record DataSourceMatcher : Type := { matcher_tags : list string }.

(** [DataSourceMatcher.matches]:
    [not any(set(rosdep_data_source.tags) - set(self.tags))] *)
Definition matches `{DataSourceLike A} (self : DataSourceMatcher)
    (rosdep_data_source : A) : bool :=
  negb (any (elements
    ((list_to_set (tags rosdep_data_source) : gset string)
       ∖ list_to_set (matcher_tags self)))).

(** [download_rosdep_data(url)], after the requests [history].  Only
    [URLError] and [YAMLError] are caught and raised again as
    [DownloadFailure]; any other exception passes through. *)
Definition download_rosdep_data `{Env} (history : list string) (url : string)
    : result yaml :=
  match urlopen history url with
  | URLError reason => Raise (DownloadFailure reason)
  | HttpFailure msg => Raise (HTTPException msg)
  | SocketFailure msg => Raise (SocketError msg)
  | Body text =>
      match yaml_safe_load text with
      | YamlError msg => Raise (DownloadFailure msg)
      | Loaded data =>
          match data with
          | YMap _ => Ok data
          | _ => Raise (DownloadFailure
                   ("rosdep data from [" +:+ url +:+ "] is not a YAML dictionary"))
          end
      end
  end.

(** The body of the loop of [parse_sources_data], over the lines that
    remain.  [model] raises [ValueError] for a line it rejects. *)
Fixpoint parse_lines {A} (model : string → string → list string → option string → result A)
    (origin : string) (lines : list string) : result (list A) :=
  match lines with
  | [] => Ok []
  | raw :: rest =>
      let line := strip raw in
      if negb (truthy line) || startswith "#" line then parse_lines model origin rest
      else
        match split " " line with
        | type_ :: url :: tags =>
            match model type_ url tags (Some origin) with
            | Ok x => bind (parse_lines model origin rest) (λ xs, Ok (x :: xs))
            | Raise (ValueError e) =>
                Raise (InvalidData ("line:" +:+ nl +:+ tab +:+ line +:+ nl +:+ e) (Some origin))
            | Raise e => Raise e
            end
        | _ => Raise (InvalidData ("invalid line:" +:+ nl +:+ line) (Some origin))
        end
  end.

(** [parse_sources_data(data, origin, model)] *)
Definition parse_sources_data {A} (data : string) (origin : string)
    (model : string → string → list string → option string → result A) : result (list A) :=
  parse_lines model origin (split "010" data).

(** [parse_sources_file(filepath)] *)
Definition parse_sources_file `{Env} (filepath : string) (fs : Fs.t)
    : result (list DataSource) :=
  match Fs.read filepath fs with
  | Ok data => parse_sources_data data filepath DataSource_init
  | Raise (IOError e) =>
      Raise (InvalidData ("I/O error reading sources file: " +:+ e) (Some filepath))
  | Raise e => Raise e
  end.

Fixpoint parse_files `{Env} (dir : string) (names : list string) (fs : Fs.t)
    : result (list DataSource) :=
  match names with
  | [] => Ok []
  | f :: rest =>
      bind (parse_sources_file (OsPath.join dir f) fs) (λ here,
      bind (parse_files dir rest fs) (λ there, Ok (here ++ there)))
  end.

(** [parse_sources_list(sources_list_dir)] *)
Definition parse_sources_list `{Env} (sources_list_dir : option string) (fs : Fs.t)
    : result (list DataSource) :=
  let sources_list_dir := default get_sources_list_dir sources_list_dir in
  if negb (Fs.path_exists sources_list_dir fs) then Ok []
  else
    bind (Fs.listdir sources_list_dir fs) (λ names,
      let filelist := filter (λ f, endswith ".list" f = true) names in
      parse_files sources_list_dir (merge_sort String.le filelist) fs).

(** [compute_filename_hash(filename_key)] *)
Definition compute_filename_hash `{Env} (filename_key : string) : string :=
  sha1_hexdigest filename_key.

(** [write_cache_file(source_cache_d, filename_key, rosdep_data)] *)
Definition write_cache_file `{Env} (source_cache_d filename_key : string)
    (data : yaml) (fs : Fs.t) : string * Fs.t :=
  let fs := if negb (Fs.path_exists source_cache_d fs)
            then Fs.makedirs source_cache_d fs else fs in
  let key_hash := compute_filename_hash filename_key in
  let filepath := OsPath.join source_cache_d key_hash in
  (filepath, Fs.write filepath (yaml_safe_dump data) fs).

(** *** The update orchestrator *)

(** What [update_sources_list] acts on: the file system, the requests
    sent to the network so far, and whatever the two handlers report to. *)
Record state (Obs : Type) : Type := mk_state {
  fs : Fs.t;
  requests : list string;
  console : Obs
}.
Global Arguments mk_state {Obs} fs requests console.
Global Arguments fs {Obs} s.
Global Arguments requests {Obs} s.
Global Arguments console {Obs} s.

Section update.
Context `{Env} {Obs : Type}.
Variable success_handler : option (DataSource → Obs → Obs).
Variable error_handler : option (DataSource → exn → Obs → Obs).

(** The dispatch on [source.type] at the head of the [try] block. *)
Definition fetch (history : list string) (source : DataSource) : result yaml :=
  match ds_type source with
  | Yaml => download_rosdep_data history (ds_url source)
  | GbpDistro =>
      match download_gbpdistro_as_rosdep_data history (ds_url source) with
      | GbpData data => Ok data
      | GbpFailure msg => Raise (DownloadFailure msg)
      end
  end.

Definition call_success (source : DataSource) (o : Obs) : Obs :=
  match success_handler with Some h => h source o | None => o end.

Definition call_error (source : DataSource) (e : exn) (o : Obs) : Obs :=
  match error_handler with Some h => h source e o | None => o end.

(** The [for source in sources] loop: [retval] grows by one pair per
    source fetched, and only [DownloadFailure] is caught. *)
Fixpoint update_loop (sources_cache_dir : string) (sources : list DataSource)
    (retval : list (DataSource * string)) (st : state Obs)
    : result (list (DataSource * string)) * state Obs :=
  match sources with
  | [] => (Ok retval, st)
  | source :: rest =>
      let asked := requests st ++ [ds_url source] in
      match fetch (requests st) source with
      | Ok data =>
          let '(filepath, fs') :=
            write_cache_file sources_cache_dir (ds_url source) data (fs st) in
          update_loop sources_cache_dir rest (retval ++ [(source, filepath)])
            (mk_state fs' asked (call_success source (console st)))
      | Raise (DownloadFailure msg) =>
          update_loop sources_cache_dir rest retval
            (mk_state (fs st) asked
               (call_error source (DownloadFailure msg) (console st)))
      | Raise e => (Raise e, mk_state (fs st) asked (console st))
      end
  end.

Definition index_header : string :=
  "#autogenerated by rosdep, do not edit. use 'rosdep update' instead" +:+ nl.

(** The line written for one source: ["yaml %s %s\n"]. *)
Definition index_line (source : DataSource) : string :=
  "yaml " +:+ ds_url source +:+ " " +:+ join " " (ds_tags source) +:+ nl.

Definition index_text (sources : list DataSource) : string :=
  index_header +:+ foldr (λ source text, index_line source +:+ text) "" sources.

(** The part of [update_sources_list] after [parse_sources_list]. *)
Definition update_from (sources_cache_dir : string) (sources : list DataSource)
    (st : state Obs) : result (list (DataSource * string)) * state Obs :=
  match update_loop sources_cache_dir sources [] st with
  | (Ok retval, st) =>
      let fs1 := if negb (Fs.path_exists sources_cache_dir (fs st))
                 then Fs.makedirs sources_cache_dir (fs st) else fs st in
      let cache_index := OsPath.join sources_cache_dir "index" in
      (Ok retval,
       mk_state (Fs.write cache_index (index_text sources) fs1)
                (requests st) (console st))
  | (Raise e, st) => (Raise e, st)
  end.

(** [update_sources_list(sources_list_dir, sources_cache_dir,
    success_handler, error_handler)] *)
Definition update_sources_list (sources_list_dir sources_cache_dir : option string)
    (st : state Obs) : result (list (DataSource * string)) * state Obs :=
  let sources_cache_dir := default get_sources_cache_dir sources_cache_dir in
  match parse_sources_list sources_list_dir (fs st) with
  | Ok sources => update_from sources_cache_dir sources st
  | Raise e => (Raise e, st)
  end.

End update.

(** *** Loading the cache *)

(** [cache_data_source_loader(sources_cache_dir)] *)
Definition cache_data_source_loader `{Env} (sources_cache_dir : string) (fs : Fs.t)
    (type_ uri : string) (tags : list string) (origin : option string)
    : result CachedDataSource :=
  let filename := compute_filename_hash uri in
  let filepath := OsPath.join sources_cache_dir filename in
  bind (if Fs.path_exists filepath fs then
          bind (Fs.read filepath fs) (λ text,
            match yaml_safe_load text with
            | Loaded data => Ok (Some data)
            | YamlError msg => Raise (YAMLError msg)
            end)
        else Ok None)
       (λ data, CachedDataSource_init type_ uri tags data (Some filepath)).

(** [load_cached_sources_list(sources_cache_dir)] *)
Definition load_cached_sources_list `{Env} (sources_cache_dir : option string)
    (fs : Fs.t) : result (list CachedDataSource) :=
  let sources_cache_dir := default get_sources_cache_dir sources_cache_dir in
  let cache_index := OsPath.join sources_cache_dir "index" in
  if negb (Fs.path_exists cache_index fs) then Ok []
  else
    bind (Fs.read cache_index fs) (λ cache_data,
      parse_sources_data cache_data cache_index
        (cache_data_source_loader sources_cache_dir fs)).

(** *** The loader *)

(** The part of [RosdepDatabase] that the loader calls. *)
Class RosdepDatabase (DB : Type) : Type := {
  is_loaded : string → DB → bool;
  set_view_data : string → option yaml → list string → string → DB → DB
}.

Record SourcesListLoader : Type := { sources : list CachedDataSource }.

Definition ALL_VIEW_KEY : string := "sources.list".

(** [SourcesListLoader.create_default(matcher, sources_cache_dir)], for
    a matcher that is given. *)
Definition create_default `{Env} (matcher : DataSourceMatcher)
    (sources_cache_dir : option string) (fs : Fs.t) : result SourcesListLoader :=
  bind (load_cached_sources_list sources_cache_dir fs) (λ loaded_sources,
    Ok {| sources := filter (λ x, matches matcher x = true) loaded_sources |}).

Definition get_loadable_resources (self : SourcesListLoader) : list string := [].

Definition get_loadable_views (self : SourcesListLoader) : list string :=
  map url (sources self).

(** [SourcesListLoader.get_view_dependencies]; an object of class
    [CachedDataSource] is always true, so [any] of the list of matching
    sources asks whether there is one. *)
Definition get_view_dependencies (self : SourcesListLoader) (view_name : string)
    : list string :=
  if negb (bool_decide (view_name = ALL_VIEW_KEY))
     && existsb (λ _, true) (filter (λ x, view_name = url x) (sources self))
  then []
  else map url (sources self).

(** [SourcesListLoader.get_source] *)
Definition get_source (self : SourcesListLoader) (view_name : string)
    : result CachedDataSource :=
  match filter (λ x, url x = view_name) (sources self) with
  | first :: _ => Ok first
  | [] => Raise (ResourceNotFound view_name)
  end.

(** [SourcesListLoader.load_view] *)
Definition load_view `{RosdepDatabase DB} (self : SourcesListLoader)
    (view_name : string) (rosdep_db : DB) : result DB :=
  if is_loaded view_name rosdep_db then Ok rosdep_db
  else
    bind (get_source self view_name) (λ source,
      let view_dependencies := get_view_dependencies self view_name in
      Ok (set_view_data view_name (rosdep_data source) view_dependencies
            view_name rosdep_db)).

Definition get_rosdeps {A} (self : SourcesListLoader) (resource_name : string)
    : result A := Raise (ResourceNotFound resource_name).

Definition get_view_key {A} (self : SourcesListLoader) (resource_name : string)
    : result A := Raise (ResourceNotFound resource_name).

End SourcesList.

(** ** rosdep2/platforms/jfrog.py *)

Module JFrog.

Definition JFROG_INSTALLER : string := "jfrog".

(** The rdmanifest document: a mapping in which every key is optional. *)
Record rdmanifest : Type := {
  m_install_script : option string;
  m_check_presence_script : option string;
  m_exec_path : option string;
  m_uri : option string;
  m_alternate_uri : option string;
  m_md5sum : option string;
  m_depends : option (list string)
}.

(** [yaml.safe_load(contents)]: the mapping, a [ScannerError], or another
    error of the parser. *)
Inductive parsed : Type :=
| Parsed (m : rdmanifest)
| ScannerError (msg : string)
| OtherYamlError (msg : string).

(** What [subprocess.run(["jf", "rt", "dl", target])] leaves behind: the
    return code and, when an artifact was fetched, its contents. *)
Record completed : Type := {
  returncode : Z;
  downloaded : option string
}.

(** The collaborators outside this module.  The answer of the artifact
    server may depend on the targets asked for so far. *)
Class Env : Type := {
  jf_rt_dl : list string → string → completed;
  md5_hexdigest : string → string;
  yaml_safe_load : string → parsed;
  untar : string → option (list (string * string));
  create_tempfile_from_string_and_execute :
    string → option string → Fs.t → bool * Fs.t
}.

(** [JFrogInstall] *)
Record JFrogInstall : Type := {
  manifest : rdmanifest;
  manifest_url : string;
  install_command : string;
  check_presence_command : string;
  exec_path : string;
  tarball : string;
  alternate_tarball : option string;
  tarball_md5sum : option string;
  dependencies : list string
}.

(** A [rosdep_args] dictionary.  The list under ['depends'] is an object
    of the heap, named by its address. *)
Record rosdep_args : Type := {
  a_uri : option string;
  a_alternate_uri : option string;
  a_md5sum : option string;
  a_depends : option positive
}.

(** The installer object ([_rdmanifest_cache]), the file system, the
    list objects that callers share with it, and the [jf] invocations
    made so far. *)
Record state : Type := mk_state {
  fs : Fs.t;
  jf_calls : list string;
  rdmanifest_cache : gmap string (list JFrogInstall);
  heap : gmap positive (list string)
}.

Definition set_fs (fs' : Fs.t) (st : state) : state :=
  mk_state fs' (jf_calls st) (rdmanifest_cache st) (heap st).

(** One run of [jf rt dl]: the call is recorded and the artifact, if
    any, lands under its repository path in the working directory. *)
Definition run_jf `{Env} (target local : string) (st : state) : Z * state :=
  let cp := jf_rt_dl (jf_calls st) target in
  let fs' :=
    match downloaded cp with
    | Some contents =>
        let d := OsPath.dirname local in
        Fs.write local contents (if truthy d then Fs.makedirs d (fs st) else fs st)
    | None => fs st
    end in
  (returncode cp, mk_state fs' (jf_calls st ++ [target]) (rdmanifest_cache st) (heap st)).

(** [_sub_fetch_file(url, md5sum)] *)
Definition _sub_fetch_file `{Env} (url : string) (md5sum : option string)
    (st : state) : result string * state :=
  let s := split "/" url in
  match s !! 4%nat with
  | None => (Raise IndexError, st)
  | Some repo =>
      let f := join "/" (last_n 4 s) in
      let '(rc, st) := run_jf (repo +:+ "/" +:+ f) f st in
      if negb (bool_decide (rc = 0%Z))
      then (Raise (DownloadFailed ("jfrog download returned " +:+ pretty rc)), st)
      else
        match Fs.read f (fs st) with
        | Raise e => (Raise e, st)
        | Ok contents =>
            match md5sum with
            | Some md5sum =>
                let filehash := md5_hexdigest contents in
                if truthy md5sum && negb (bool_decide (filehash = md5sum))
                then (Raise (DownloadFailed
                        ("md5sum didn't match for " +:+ url +:+ ".  Expected "
                         +:+ md5sum +:+ " got " +:+ filehash)), st)
                else (Ok contents, st)
            | None => (Ok contents, st)
            end
        end
  end.

(** [get_file_hash(filename)] *)
Definition get_file_hash `{Env} (filename : string) (fs : Fs.t) : result string :=
  bind (Fs.read filename fs) (λ contents, Ok (md5_hexdigest contents)).

(** [fetch_file(url, md5sum)]: the pair [(contents, error)]. *)
Definition fetch_file `{Env} (url : string) (md5sum : option string) (st : state)
    : result (string * string) * state :=
  match _sub_fetch_file url md5sum st with
  | (Ok contents, st) => (Ok (contents, ""), st)
  | (Raise (DownloadFailed e), st) => (Ok ("", e), st)
  | (Raise e, st) => (Raise e, st)
  end.

(** [load_rdmanifest(contents)] *)
Definition load_rdmanifest `{Env} (contents : string) : result rdmanifest :=
  match yaml_safe_load contents with
  | Parsed m => Ok m
  | ScannerError ex =>
      Raise (InvalidRdmanifest
               ("Failed to parse yaml in " +:+ contents +:+ ":  Error: " +:+ ex))
  | OtherYamlError ex => Raise (YAMLError ex)
  end.

(** [download_rdmanifest(url, md5sum, alt_url)] *)
Definition download_rdmanifest `{Env} (url : string) (md5sum alt_url : option string)
    (st : state) : result (rdmanifest * string) * state :=
  let finish (download_url error_prefix : string) (got : string * string) st :=
    if negb (truthy got.1)
    then (Raise (DownloadFailed (error_prefix +:+ got.2)), st)
    else (bind (load_rdmanifest got.1) (λ m, Ok (m, download_url)), st) in
  let error_prefix := "Failed to load a rdmanifest from " +:+ url +:+ ": " in
  match fetch_file url md5sum st with
  | (Raise e, st) => (Raise e, st)
  | (Ok got, st) =>
      match alt_url with
      | Some alt =>
          if negb (truthy got.1) && truthy alt then
            let error_prefix :=
              "Failed to load a rdmanifest from either " +:+ url +:+ " or "
              +:+ alt +:+ ": " in
            match fetch_file alt md5sum st with
            | (Raise e, st) => (Raise e, st)
            | (Ok got, st) => finish alt error_prefix got st
            end
          else finish url error_prefix got st
      | None => finish url error_prefix got st
      end
  end.

(** [JFrogInstall.from_manifest(manifest, manifest_url)] *)
Definition from_manifest (manifest : rdmanifest) (manifest_url : string)
    : result JFrogInstall :=
  match m_uri manifest with
  | None => Raise (InvalidRdmanifest "uri required for source rosdeps")
  | Some uri =>
      Ok {| manifest := manifest;
            manifest_url := manifest_url;
            install_command := default "" (m_install_script manifest);
            check_presence_command := default "" (m_check_presence_script manifest);
            exec_path := default "." (m_exec_path manifest);
            tarball := uri;
            alternate_tarball := m_alternate_uri manifest;
            tarball_md5sum := m_md5sum manifest;
            dependencies := default [] (m_depends manifest) |}
  end.

(** [is_source_installed(source_item)] *)
Definition is_source_installed `{Env} (source_item : JFrogInstall) (fs : Fs.t)
    : bool * Fs.t :=
  create_tempfile_from_string_and_execute (check_presence_command source_item) None fs.

(** [x in self._rdmanifest_cache] for a key that may be [None]. *)
Definition cached (key : option string) (st : state) : option (list JFrogInstall) :=
  key ≫= λ k, rdmanifest_cache st !! k.

(** [JFrogInstaller.resolve(rosdep_args)] *)
Definition resolve `{Env} (args : rosdep_args) (st : state)
    : result (list JFrogInstall) * state :=
  match a_uri args with
  | None => (Raise (InvalidData "'uri' key required for source rosdeps" None), st)
  | Some url =>
      let alt_url := a_alternate_uri args in
      let md5sum := a_md5sum args in
      match cached (Some url) st with
      | Some hit => (Ok hit, st)
      | None =>
          match cached alt_url st with
          | Some hit => (Ok hit, st)
          | None =>
              match download_rdmanifest url md5sum alt_url st with
              | (Ok (manifest, download_url), st) =>
                  match from_manifest manifest download_url with
                  | Ok resolved =>
                      (Ok [resolved],
                       mk_state (fs st) (jf_calls st)
                         (<[download_url := [resolved]]> (rdmanifest_cache st))
                         (heap st))
                  | Raise (InvalidRdmanifest ex) => (Raise (InvalidData ex None), st)
                  | Raise e => (Raise e, st)
                  end
              | (Raise (DownloadFailed ex), st) => (Raise (InvalidData ex None), st)
              | (Raise (InvalidRdmanifest ex), st) => (Raise (InvalidData ex None), st)
              | (Raise e, st) => (Raise e, st)
              end
          end
      end
  end.

(** [deps.extend(r.dependencies)] for each [r], on the list object at
    address [deps]. *)
Definition extend_all (deps : positive) (rs : list JFrogInstall)
    (h : gmap positive (list string)) : gmap positive (list string) :=
  foldl (λ h r, alter (λ l, l ++ dependencies r) deps h) h rs.

(** [JFrogInstaller.get_depends(rosdep_args)]: the address of the list
    that is returned. *)
Definition get_depends `{Env} (args : rosdep_args) (st : state)
    : result positive * state :=
  let '(deps, st) :=
    match a_depends args with
    | Some deps => (deps, st)
    | None =>
        let fresh_list := fresh (dom (heap st)) in
        (fresh_list,
         mk_state (fs st) (jf_calls st) (rdmanifest_cache st)
           (<[fresh_list := []]> (heap st)))
    end in
  match resolve args st with
  | (Ok rs, st) =>
      (Ok deps,
       mk_state (fs st) (jf_calls st) (rdmanifest_cache st)
         (extend_all deps rs (heap st)))
  | (Raise e, st) => (Raise e, st)
  end.

(** *** The install pipeline *)

(** [jfrog_urlretrieve(url)]: every failure, the [IndexError] of a short
    URL included, is answered by a pair of empty strings. *)
Definition jfrog_urlretrieve `{Env} (url : string) (st : state)
    : (string * string) * state :=
  let s := split "/" url in
  match s !! 4%nat with
  | None => (("", ""), st)
  | Some repo =>
      let f := join "/" (last_n 4 s) in
      let '(rc, st) := run_jf (repo +:+ "/" +:+ f) f st in
      if bool_decide (rc = 0%Z) then ((f, ""), st) else (("", ""), st)
  end.

Definition md5sum_failure_both (resolved : JFrogInstall) (alternate md5sum hash1 hash2 : string)
    : exn :=
  InstallFailed JFROG_INSTALLER
    ("md5sum check on " +:+ tarball resolved +:+ " and " +:+ alternate
     +:+ " failed.  Expected " +:+ md5sum +:+ " got " +:+ hash1 +:+ " and " +:+ hash2).

Definition md5sum_failure_one (resolved : JFrogInstall) (md5sum hash1 : string) : exn :=
  InstallFailed JFROG_INSTALLER
    ("md5sum check on " +:+ tarball resolved +:+ " failed.  Expected " +:+ md5sum
     +:+ " got " +:+ hash1 +:+ " ").

(** The [if resolved.tarball_md5sum:] statement of [install_source]:
    the name of the file that the rest of the function works on. *)
Definition check_md5sum `{Env} (resolved : JFrogInstall) (filename : string)
    (st : state) : result string * state :=
  match tarball_md5sum resolved with
  | Some md5sum =>
      if truthy md5sum then
        match get_file_hash filename (fs st) with
        | Raise e => (Raise e, st)
        | Ok hash1 =>
            if negb (bool_decide (md5sum = hash1)) then
              match alternate_tarball resolved with
              | Some alternate =>
                  if truthy alternate then
                    let '(f, st) := jfrog_urlretrieve alternate st in
                    let filename := f.1 in
                    match get_file_hash filename (fs st) with
                    | Raise e => (Raise e, st)
                    | Ok hash2 =>
                        if negb (bool_decide (md5sum = hash2))
                        then (Raise (md5sum_failure_both resolved alternate md5sum hash1 hash2), st)
                        else (Ok filename, st)
                    end
                  else (Raise (md5sum_failure_one resolved md5sum hash1), st)
              | None => (Raise (md5sum_failure_one resolved md5sum hash1), st)
              end
            else (Ok filename, st)
        end
      else (Ok filename, st)
  | None => (Ok filename, st)
  end.

(** [tarfile.open(filename)] and [tarf.extractall(tempdir)] *)
Definition extract `{Env} (filename tempdir : string) (fs : Fs.t) : result unit * Fs.t :=
  match Fs.read filename fs with
  | Raise e => (Raise e, fs)
  | Ok contents =>
      match untar contents with
      | None => (Raise (ReadError "file could not be opened successfully"), fs)
      | Some members =>
          (Ok (), foldl (λ fs m, Fs.write (OsPath.join tempdir m.1) m.2 fs) fs members)
      end
  end.

(** The body of the [try] statement of [install_source]. *)
Definition extract_and_run `{Env} (resolved : JFrogInstall) (filename tempdir : string)
    (fs : Fs.t) : result unit * Fs.t :=
  let '(extracted, fs) :=
    if negb (endswith ".dmg" filename) then extract filename tempdir fs
    else (Ok (), fs) in
  match extracted with
  | Raise e => (Raise e, fs)
  | Ok _ =>
      let '(success, fs) :=
        create_tempfile_from_string_and_execute (install_command resolved)
          (Some (OsPath.join tempdir (exec_path resolved))) fs in
      if success then (Ok (), fs)
      else (Raise (InstallFailed JFROG_INSTALLER
                     "installation script returned with error code"), fs)
  end.

(** The [try ... finally] statement: [shutil.rmtree(tempdir)] runs
    whatever the body did, and its own failure takes over. *)
Definition try_finally_rmtree `{Env} (resolved : JFrogInstall) (filename tempdir : string)
    (st : state) : result unit * state :=
  let '(outcome, fs1) := extract_and_run resolved filename tempdir (fs st) in
  let '(cleanup, fs2) := Fs.rmtree tempdir fs1 in
  match cleanup with
  | Raise e => (Raise e, set_fs fs2 st)
  | Ok _ => (outcome, set_fs fs2 st)
  end.

(** The working directory of [install_source(resolved)]. *)
Definition tempdir_of (resolved : JFrogInstall) : string :=
  OsPath.dirname (join "/" (last_n 4 (split "/" (tarball resolved)))).

(** [install_source(resolved)] *)
Definition install_source `{Env} (resolved : JFrogInstall) (st : state)
    : result unit * state :=
  let s := split "/" (tarball resolved) in
  match s !! 4%nat with
  | None => (Raise IndexError, st)
  | Some repo =>
      let filename := join "/" (last_n 4 s) in
      let tempdir := OsPath.dirname filename in
      let '(f, st) := jfrog_urlretrieve (tarball resolved) st in
      if negb (bool_decide (f.1 = filename)) then (Raise AssertionError, st)
      else
        match check_md5sum resolved filename st with
        | (Raise e, st) => (Raise e, st)
        | (Ok filename, st) => try_finally_rmtree resolved filename tempdir st
        end
  end.

(** [install_from_url(rdmanifest_url)] *)
Definition install_from_url `{Env} (rdmanifest_url : string) (st : state)
    : result unit * state :=
  match download_rdmanifest rdmanifest_url None None st with
  | (Ok (manifest, download_url), st) =>
      match from_manifest manifest download_url with
      | Ok resolved => install_source resolved st
      | Raise e => (Raise e, st)
      end
  | (Raise e, st) => (Raise e, st)
  end.

End JFrog.

(** * Properties *)

(** ** Python strings *)

Module PyFacts.

Lemma truthy_true (s : string) : truthy s = true ↔ s ≠ "".
Proof. destruct s; simpl; split; intros; congruence. Qed.

Lemma truthy_false (s : string) : truthy s = false ↔ s = "".
Proof. destruct s; simpl; split; intros; congruence. Qed.

(** [any] over the elements of a set finds a non-empty member. *)
Lemma any_elements (X : gset string) :
  any (elements X) = true ↔ ∃ x, x ∈ X ∧ x ≠ "".
Proof.
  unfold any. rewrite existsb_exists. split.
  - intros (x & Hin & Hx). exists x. split.
    + apply elem_of_elements, list_elem_of_In, Hin.
    + by apply truthy_true.
  - intros (x & Hin & Hx). exists x. split.
    + by apply list_elem_of_In, elem_of_elements.
    + by apply truthy_true.
Qed.

(** Settles a closed decidable proposition by evaluation. *)
Ltac by_compute := apply (bool_decide_unpack _); vm_compute; exact I.

Lemma split_nonempty (sep : ascii) (s : string) : split sep s ≠ [].
Proof.
  destruct s as [|c r]; simpl; [done|].
  case_decide; [done|]. by destruct (split sep r).
Qed.

Lemma str_app_cons (x : ascii) (a b : string) :
  String x a +:+ b = String x (a +:+ b).
Proof. done. Qed.

Lemma str_app_nil (b : string) : "" +:+ b = b.
Proof. done. Qed.

Lemma str_app_assoc (a b c : string) : (a +:+ b) +:+ c = a +:+ b +:+ c.
Proof.
  induction a as [|x a IH]; [done|]. by rewrite !str_app_cons, IH.
Qed.

(** The character [c] does not occur in [s]. *)
Fixpoint free_of (c : ascii) (s : string) : bool :=
  match s with
  | "" => true
  | String x r => negb (bool_decide (x = c)) && free_of c r
  end.

Lemma free_of_cons (c x : ascii) (r : string) :
  free_of c (String x r) = true ↔ x ≠ c ∧ free_of c r = true.
Proof.
  simpl. rewrite andb_true_iff, negb_true_iff, bool_decide_eq_false. done.
Qed.

Lemma free_of_app (c : ascii) (a b : string) :
  free_of c (a +:+ b) = free_of c a && free_of c b.
Proof.
  induction a as [|x a IH]; [done|].
  rewrite str_app_cons. simpl. by rewrite IH, andb_assoc.
Qed.

Lemma split_free (c : ascii) (s : string) :
  free_of c s = true → split c s = [s].
Proof.
  induction s as [|x r IH]; [done|].
  intros [Hx Hr]%free_of_cons. simpl.
  rewrite decide_False by done. by rewrite IH.
Qed.

(** The first piece ends at the first separator. *)
Lemma split_app_sep (c : ascii) (a b : string) :
  free_of c a = true → split c (a +:+ String c b) = a :: split c b.
Proof.
  induction a as [|x a IH].
  - intros _. rewrite str_app_nil. simpl. by rewrite decide_True.
  - intros [Hx Ha]%free_of_cons. rewrite str_app_cons. simpl.
    rewrite decide_False by done. by rewrite IH.
Qed.

(** No piece of [split] has the separator in it, and none gains a
    character that the string did not have. *)
Lemma split_pieces_free (c : ascii) (s : string) :
  Forall (λ piece, free_of c piece = true) (split c s).
Proof.
  induction s as [|x r IH]; simpl; [by repeat constructor|].
  case_decide as Hx; [by constructor|].
  destruct (split c r) as [|h t]; [by repeat constructor; apply free_of_cons|].
  inversion_clear IH. constructor; [by apply free_of_cons|done].
Qed.

Lemma split_pieces_keep_free (c d : ascii) (s : string) :
  free_of d s = true → Forall (λ piece, free_of d piece = true) (split c s).
Proof.
  induction s as [|x r IH]; simpl; [by repeat constructor|].
  intros [Hx Hr]%andb_true_iff. specialize (IH Hr).
  destruct (decide (x = c)); [by constructor|].
  destruct (split c r) as [|h t].
  - repeat constructor. simpl. by rewrite Hx.
  - inversion_clear IH. constructor; [|done]. simpl. by rewrite Hx.
Qed.

Lemma lstrip_keep_free (d : ascii) (s : string) :
  free_of d s = true → free_of d (lstrip s) = true.
Proof.
  induction s as [|x r IH]; [done|]. intros Hs. simpl.
  destruct (Ascii.is_space x); [|done].
  apply IH. by apply andb_true_iff in Hs as [_ ?].
Qed.

Lemma rstrip_keep_free (d : ascii) (s : string) :
  free_of d s = true → free_of d (rstrip s) = true.
Proof.
  induction s as [|x r IH]; [done|]. intros [Hx Hr]%andb_true_iff. simpl.
  specialize (IH Hr). destruct (rstrip r) as [|y r'].
  - destruct (Ascii.is_space x); [done|]. simpl. by rewrite Hx.
  - simpl in *. by rewrite Hx.
Qed.

Lemma strip_keep_free (d : ascii) (s : string) :
  free_of d s = true → free_of d (strip s) = true.
Proof. intros Hs. by apply lstrip_keep_free, rstrip_keep_free. Qed.

Lemma join_keep_free (d : ascii) (sep : string) (l : list string) :
  free_of d sep = true →
  Forall (λ x, free_of d x = true) l →
  free_of d (join sep l) = true.
Proof.
  intros Hsep. induction 1 as [|x l Hx Hl IH]; [done|].
  simpl. destruct l as [|y l]; [done|].
  by rewrite !free_of_app, Hx, Hsep, IH.
Qed.

End PyFacts.

(** ** The tag matcher *)

Module MatcherFacts.
Import SourcesList PyFacts.

(** What the expression computes: the empty string is a tag that is
    never missed. *)
Lemma matches_iff `{DataSourceLike A} (self : DataSourceMatcher) (x : A) :
  matches self x = true ↔
  ∀ t, t ∈ tags x → t ≠ "" → t ∈ matcher_tags self.
Proof.
  unfold matches. rewrite negb_true_iff, <- not_true_iff_false, any_elements.
  split.
  - intros Hno t Hin Hne.
    destruct (decide (t ∈ matcher_tags self)) as [|Hout]; [done|].
    exfalso. apply Hno. exists t. split; [|done].
    apply elem_of_difference. by rewrite !elem_of_list_to_set.
  - intros Hall (t & Hin & Hne).
    apply elem_of_difference in Hin as [Hin Hout].
    rewrite elem_of_list_to_set in Hin, Hout. by apply Hout, Hall.
Qed.

(** For sources without an empty tag the matcher is the subset test. *)
Lemma matches_subset `{DataSourceLike A} (self : DataSourceMatcher) (x : A) :
  "" ∉ tags x →
  matches self x = true ↔ ∀ t, t ∈ tags x → t ∈ matcher_tags self.
Proof.
  intros Hne. rewrite matches_iff. split.
  - intros Hall t Hin. apply Hall; [done|]. by intros ->.
  - intros Hall t Hin _. by apply Hall.
Qed.

(** A source without tags matches every platform. *)
Lemma matches_no_tags `{DataSourceLike A} (self : DataSourceMatcher) (x : A) :
  tags x = [] → matches self x = true.
Proof. intros Hnil. apply matches_iff. rewrite Hnil. by intros t ?%elem_of_nil. Qed.

(** The source that the line [yaml http://example.org/b.yaml  ubuntu],
    written with two spaces before the tag, parses to. *)
Definition double_space_source : DataSource :=
  {| ds_type := Yaml; ds_url := "http://example.org/b.yaml";
     ds_tags := [""; "ubuntu"]; ds_origin := Some "20-default.list" |}.

(** C5: [matches] is meant to hold exactly when every tag of the source
    is among the matcher's tags.  On a source with the tags [""] and
    ["ubuntu"] and a matcher for ["ubuntu"] it answers true, although
    the tag [""] is not among the matcher's tags. *)
Theorem C5_matches_misses_empty_tag :
  matches {| matcher_tags := ["ubuntu"] |} double_space_source = true
  ∧ ¬ (∀ t, t ∈ tags double_space_source → t ∈ ["ubuntu"]).
Proof.
  split; [by vm_compute|].
  intros Hall. specialize (Hall "" ltac:(simpl; left)).
  by apply list_elem_of_singleton in Hall.
Qed.

End MatcherFacts.

(** ** The view loader *)

Module LoaderFacts.
Import SourcesList PyFacts.

(** A cached source as its constructor leaves it: the fields passed the
    validation of [DataSource.__init__]. *)
Definition constructed `{Env} (c : CachedDataSource) : Prop :=
  CachedDataSource_init (string_of_type (type c)) (url c) (tags c)
    (rosdep_data c) (origin c) = Ok c.

(** A loader for testing: two sources of [example.org], the second tagged. *)
Definition sample_urlparse (u : string) : ParseResult :=
  if startswith "http://example.org/" u
  then {| scheme := "http"; netloc := "example.org";
          path := String.rev (OsPath.str_take (String.length u - 18) (String.rev u)) |}
  else {| scheme := ""; netloc := ""; path := u |}.

Definition sample_env : Env :=
  {| urlparse := sample_urlparse;
     sha1_hexdigest := λ key, "sha1-" +:+ String.rev key;
     yaml_safe_load := λ text,
       if startswith "{" text then Loaded (YMap [])
       else if startswith "[" text then Loaded (YSeq [])
       else YamlError "mapping values are not allowed here";
     yaml_safe_dump := λ _, "{}" +:+ nl;
     urlopen := λ _ u,
       if endswith "a.yaml" u then Body "{}"
       else if endswith "b.yaml" u then URLError "<urlopen error timed out>"
       else if endswith "c.yaml" u then Body "[]"
       else Body ": :";
     download_gbpdistro_as_rosdep_data := λ _ _, GbpFailure "not a gbpdistro";
     ros_home := "/home/user/.ros" |}.

Definition sample_source (u : string) (t : list string) : CachedDataSource :=
  {| source := {| ds_type := Yaml; ds_url := u; ds_tags := t;
                  ds_origin := Some "/var/cache/index" |};
     rosdep_data := Some (YMap []) |}.

Definition sample_loader : SourcesListLoader :=
  {| sources := [sample_source "http://example.org/a.yaml" [];
                 sample_source "http://example.org/b.yaml" ["ubuntu"]] |}.

(** A database that only remembers the names of the views it was given. *)
Definition sample_db : RosdepDatabase (list string) :=
  {| is_loaded := λ name db, bool_decide (name ∈ db);
     set_view_data := λ name _ _ _ db, name :: db |}.

Section loader.
Context `{Env}.

(** [urlparse] finds no scheme in the name of the aggregate view, which
    has no colon. *)
Hypothesis urlparse_ALL_VIEW_KEY : scheme (urlparse ALL_VIEW_KEY) = "".

Lemma constructed_url (c : CachedDataSource) :
  constructed c → url c ≠ ALL_VIEW_KEY.
Proof.
  unfold constructed, CachedDataSource_init, DataSource_init.
  intros Hc Heq. rewrite Heq in Hc.
  destruct (type_of_string _); [|done].
  by rewrite urlparse_ALL_VIEW_KEY in Hc.
Qed.

Lemma existsb_const_true {A} (l : list A) :
  existsb (λ _, true) l = true ↔ l ≠ [].
Proof. destruct l; simpl; split; intros; congruence. Qed.

Lemma filter_url_nil (l : list CachedDataSource) (P : CachedDataSource → Prop)
    `{∀ x, Decision (P x)} :
  filter P l = [] ↔ ∀ x, x ∈ l → ¬ P x.
Proof.
  rewrite <- Forall_forall. split.
  - intros Hnil. induction l as [|a l IH]; [constructor|].
    rewrite filter_cons in Hnil. case_decide; [done|].
    constructor; auto.
  - intros Hall. induction Hall as [|a l Ha _ IH]; [done|].
    rewrite filter_cons. by case_decide.
Qed.

Lemma aggregate_not_a_source (self : SourcesListLoader) :
  Forall constructed (sources self) →
  filter (λ x, url x = ALL_VIEW_KEY) (sources self) = [].
Proof.
  intros Hall. apply filter_url_nil. intros x Hin.
  rewrite Forall_forall in Hall. by apply constructed_url, Hall.
Qed.

(** C6: [get_view_dependencies] returns the empty list for the URL of a
    retained source, and the URLs of all retained sources for every other
    name, the aggregate view key included. *)
Theorem C6_get_view_dependencies (self : SourcesListLoader) (view_name : string) :
  Forall constructed (sources self) →
  (view_name ∈ get_loadable_views self → get_view_dependencies self view_name = [])
  ∧ (view_name ∉ get_loadable_views self →
     get_view_dependencies self view_name = get_loadable_views self)
  ∧ (ALL_VIEW_KEY ∉ get_loadable_views self)
  ∧ get_view_dependencies self ALL_VIEW_KEY = get_loadable_views self.
Proof.
  intros Hall. unfold get_view_dependencies, get_loadable_views.
  assert (Hagg : ALL_VIEW_KEY ∉ map url (sources self)).
  { intros (c & Hc & Hin)%list_elem_of_In%in_map_iff.
    apply list_elem_of_In in Hin. rewrite Forall_forall in Hall.
    by apply (constructed_url c); [apply Hall|]. }
  split; [|split; [|split]].
  - intros Hin.
    assert (Hne : view_name ≠ ALL_VIEW_KEY) by (by intros ->).
    rewrite bool_decide_eq_false_2 by done. simpl.
    destruct (existsb _ _) eqn:Hex; [done|].
    apply not_true_iff_false in Hex. rewrite existsb_const_true in Hex.
    exfalso. apply Hex. intros Hnil.
    apply list_elem_of_In, in_map_iff in Hin as (c & Hc & Hin).
    apply list_elem_of_In in Hin.
    rewrite filter_url_nil in Hnil. by apply (Hnil c).
  - intros Hout.
    assert (Hnil : filter (λ x, view_name = url x) (sources self) = []).
    { apply filter_url_nil. intros c Hin Heq. apply Hout.
      apply list_elem_of_In, in_map_iff. exists c.
      split; [done|]. by apply list_elem_of_In. }
    rewrite Hnil. simpl. by rewrite andb_false_r.
  - done.
  - by rewrite bool_decide_eq_true_2.
Qed.

(** C10: on a database that has not loaded the aggregate view,
    [load_view] with the aggregate view key raises [ResourceNotFound]:
    [get_source] only finds the URLs of sources. *)
Theorem C10_load_view_aggregate `{RosdepDatabase DB} (self : SourcesListLoader)
    (rosdep_db : DB) :
  Forall constructed (sources self) →
  is_loaded ALL_VIEW_KEY rosdep_db = false →
  load_view self ALL_VIEW_KEY rosdep_db = Raise (ResourceNotFound ALL_VIEW_KEY).
Proof.
  intros Hall Hnot. unfold load_view, get_source.
  by rewrite Hnot, aggregate_not_a_source.
Qed.

End loader.

Lemma sample_loader_constructed :
  Forall (@constructed sample_env) (sources sample_loader).
Proof. repeat constructor. Qed.

Lemma C6_get_view_dependencies_witness :
  Forall (@constructed sample_env) (sources sample_loader)
  ∧ get_view_dependencies sample_loader "http://example.org/b.yaml" = []
  ∧ get_view_dependencies sample_loader "http://example.org/z.yaml"
    = ["http://example.org/a.yaml"; "http://example.org/b.yaml"]
  ∧ get_view_dependencies sample_loader ALL_VIEW_KEY
    = ["http://example.org/a.yaml"; "http://example.org/b.yaml"].
Proof.
  pose proof (@C6_get_view_dependencies sample_env eq_refl sample_loader
                "http://example.org/b.yaml" sample_loader_constructed) as (Hb & _ & _ & Hall).
  pose proof (@C6_get_view_dependencies sample_env eq_refl sample_loader
                "http://example.org/z.yaml" sample_loader_constructed) as (_ & Hz & _).
  split; [apply sample_loader_constructed|].
  split; [apply Hb; by_compute|].
  split; [apply Hz; by_compute|apply Hall].
Defined.

Lemma C10_load_view_aggregate_witness :
  Forall (@constructed sample_env) (sources sample_loader)
  ∧ @is_loaded _ sample_db ALL_VIEW_KEY ["http://example.org/a.yaml"] = false
  ∧ @load_view _ sample_db sample_loader ALL_VIEW_KEY ["http://example.org/a.yaml"]
    = Raise (ResourceNotFound ALL_VIEW_KEY).
Proof.
  split; [apply sample_loader_constructed|].
  split; [reflexivity|].
  apply (@C10_load_view_aggregate sample_env eq_refl _ sample_db);
    [apply sample_loader_constructed | reflexivity].
Defined.

End LoaderFacts.

(** ** The sources list format *)

Module ParseFacts.
Import SourcesList PyFacts.

Local Arguments startswith : simpl never.

(** A model that keeps what it is called with. *)
Definition record_model (type_ url : string) (tags : list string)
    (origin : option string) : result (string * string * list string) :=
  Ok (type_, url, tags).

(** The tokens of a line when white space delimits them: every run of
    blanks or tabs separates two tokens. *)
Definition whitespace_tokens (line : string) : list string := String.words line.

(** A line that is neither empty nor a comment. *)
Definition entry_line (line : string) : Prop :=
  strip line = line ∧ truthy line = true ∧ startswith "#" line = false.

(** The sentence on the format, with white space as the delimiter: an
    entry line is read as its white-space-delimited tokens, and one with
    fewer than two of them is an [InvalidData] error naming line and file. *)
Definition whitespace_format : Prop :=
  ∀ line origin, entry_line line →
    match whitespace_tokens line with
    | type_ :: url :: tags =>
        parse_sources_data line origin record_model = Ok [(type_, url, tags)]
    | _ =>
        parse_sources_data line origin record_model
        = Raise (InvalidData ("invalid line:" +:+ nl +:+ line) (Some origin))
    end.

Section parse.
Context {A : Type}.
Variable model : string → string → list string → option string → result A.
Variable origin : string.

Lemma parse_lines_app (before rest : list string) :
  parse_lines model origin (before ++ rest)
  = match parse_lines model origin before with
    | Ok xs => bind (parse_lines model origin rest) (λ ys, Ok (xs ++ ys))
    | Raise e => Raise e
    end.
Proof.
  induction before as [|raw before IH]; simpl.
  - by destruct (parse_lines model origin rest).
  - destruct (negb (truthy (strip raw)) || startswith "#" (strip raw)); [done|].
    destruct (split " " (strip raw)) as [|type_ [|u tg]]; [done..|].
    destruct (model type_ u tg (Some origin)) as [x|e]; [|by destruct e].
    rewrite IH. destruct (parse_lines model origin before); [|done].
    by destruct (parse_lines model origin rest).
Qed.

(** A line without a second token stops the loop. *)
Lemma parse_lines_short (raw : string) (after : list string) :
  truthy (strip raw) = true →
  startswith "#" (strip raw) = false →
  length (split " " (strip raw)) < 2 →
  parse_lines model origin (raw :: after)
  = Raise (InvalidData ("invalid line:" +:+ nl +:+ strip raw) (Some origin)).
Proof.
  intros Hne Hnc Hlen. simpl. rewrite Hne, Hnc. simpl.
  destruct (split " " (strip raw)) as [|type_ [|u tg]]; [done..|].
  simpl in Hlen. lia.
Qed.

(** A line with two tokens or more is handed to the model as type, URL
    and tags. *)
Lemma parse_lines_tokens (raw type_ u : string) (tg after : list string) :
  truthy (strip raw) = true →
  startswith "#" (strip raw) = false →
  split " " (strip raw) = type_ :: u :: tg →
  parse_lines model origin (raw :: after)
  = match model type_ u tg (Some origin) with
    | Ok x => bind (parse_lines model origin after) (λ xs, Ok (x :: xs))
    | Raise (ValueError e) =>
        Raise (InvalidData ("line:" +:+ nl +:+ tab +:+ strip raw +:+ nl +:+ e) (Some origin))
    | Raise e => Raise e
    end.
Proof. intros Hne Hnc Hsplit. simpl. by rewrite Hne, Hnc, Hsplit. Qed.

(** The model rejects a line by [ValueError] and in no other way. *)
Definition raises_ValueError_only : Prop :=
  ∀ type_ u tg o e, model type_ u tg o = Raise e → ∃ msg, e = ValueError msg.

Lemma parse_lines_raises (lines : list string) (e : exn) :
  raises_ValueError_only →
  parse_lines model origin lines = Raise e →
  ∃ msg, e = InvalidData msg (Some origin).
Proof.
  intros Hmodel. induction lines as [|raw lines IH]; simpl; [done|].
  destruct (negb (truthy (strip raw)) || startswith "#" (strip raw)); [done|].
  destruct (split " " (strip raw)) as [|type_ [|u tg]];
    [intros [= <-]; eauto..|].
  destruct (model type_ u tg (Some origin)) as [x|e'] eqn:Hm.
  - destruct (parse_lines model origin lines); [done|].
    simpl. intros [= <-]. by apply IH.
  - destruct (Hmodel _ _ _ _ _ Hm) as [msg ->]. intros [= <-]. eauto.
Qed.

End parse.

Lemma DataSource_init_raises `{Env} : raises_ValueError_only DataSource_init.
Proof.
  intros type_ u tg o e. unfold DataSource_init.
  destruct (type_of_string type_); [|intros [= <-]; eauto].
  destruct (_ || _); [intros [= <-]; eauto|done].
Qed.

(** C7, as the code has it: the tokens of an entry line are what
    [split(' ')] cuts at each single space; the first two are the type
    and the URL, the others the tags; a line with fewer than two tokens
    makes parsing fail with [InvalidData] for the origin file, naming
    that line when the lines before it were accepted. *)
Theorem C7_space_delimited_tokens {A} (model : string → string → list string → option string → result A)
    (data origin raw : string) (before after : list string) :
  split "010" data = before ++ raw :: after →
  truthy (strip raw) = true →
  startswith "#" (strip raw) = false →
  (∀ type_ u tg xs,
     split " " (strip raw) = type_ :: u :: tg →
     parse_lines model origin before = Ok xs →
     parse_sources_data data origin model
     = match model type_ u tg (Some origin) with
       | Ok x => bind (parse_lines model origin after) (λ ys, Ok (xs ++ x :: ys))
       | Raise (ValueError e) =>
           Raise (InvalidData ("line:" +:+ nl +:+ tab +:+ strip raw +:+ nl +:+ e) (Some origin))
       | Raise e => Raise e
       end)
  ∧ (length (split " " (strip raw)) < 2 →
     (∀ xs, parse_lines model origin before = Ok xs →
        parse_sources_data data origin model
        = Raise (InvalidData ("invalid line:" +:+ nl +:+ strip raw) (Some origin)))
     ∧ (raises_ValueError_only model →
        ∃ msg, parse_sources_data data origin model = Raise (InvalidData msg (Some origin)))).
Proof.
  intros Hdata Hne Hnc. unfold parse_sources_data. rewrite Hdata, parse_lines_app.
  split.
  - intros type_ u tg xs Hsplit ->.
    rewrite (parse_lines_tokens _ _ _ _ _ _ _ Hne Hnc Hsplit).
    destruct (model type_ u tg (Some origin)) as [x|[]]; simpl; try done.
    by destruct (parse_lines model origin after).
  - intros Hlen. rewrite (parse_lines_short _ _ _ _ Hne Hnc Hlen). split.
    + by intros xs ->.
    + intros Hmodel.
      destruct (parse_lines model origin before) as [xs|e] eqn:Hbefore; [eauto|].
      destruct (parse_lines_raises _ _ _ _ Hmodel Hbefore) as [msg ->]. eauto.
Qed.

(** The line with two spaces before its tag is accepted, with the empty
    string as the first of two tags. *)
Example parse_double_space :
  parse_sources_data "yaml http://example.org/b.yaml  ubuntu" "20-default.list"
    (@DataSource_init LoaderFacts.sample_env)
  = Ok [MatcherFacts.double_space_source].
Proof. vm_compute. reflexivity. Qed.

(** The document of three lines used below: a comment, an entry, and a
    line that has a type and nothing else. *)
Definition sample_document : string :=
  "# rosdep sources" +:+ nl +:+ "yaml http://example.org/a.yaml" +:+ nl +:+ "  gbpdistro ".

Lemma C7_space_delimited_tokens_witness :
  parse_sources_data sample_document "20-default.list" record_model
  = Raise (InvalidData ("invalid line:" +:+ nl +:+ "gbpdistro") (Some "20-default.list")).
Proof.
  refine (proj1 (proj2 (C7_space_delimited_tokens record_model sample_document
            "20-default.list" "  gbpdistro "
            ["# rosdep sources"; "yaml http://example.org/a.yaml"] []
            eq_refl eq_refl eq_refl) _) [("yaml", "http://example.org/a.yaml", [])] eq_refl).
  vm_compute. lia.
Defined.

(** C7 as it is worded does not hold: a tab delimits no tokens for the
    parser, and two spaces delimit three. *)
Lemma C7_whitespace_counterexample : ¬ whitespace_format.
Proof.
  intros Hformat.
  specialize (Hformat ("yaml" +:+ tab +:+ "http://example.org/a.yaml") "20-default.list").
  vm_compute in Hformat. specialize (Hformat (conj eq_refl (conj eq_refl eq_refl))).
  discriminate Hformat.
Qed.

End ParseFacts.

(** ** The update orchestrator *)

Module UpdateFacts.
Import SourcesList PyFacts.

Local Arguments startswith : simpl never.

Section update_facts.
Context `{Env} {Obs : Type}.

(** The ways in which the fetch of one source fails, each with the detail
    that the [DownloadFailure] carries. *)
Inductive fetch_fails (history : list string) (source : DataSource) : string → Prop :=
| network_error reason :
    ds_type source = Yaml →
    urlopen history (ds_url source) = URLError reason →
    fetch_fails history source reason
| malformed_document text msg :
    ds_type source = Yaml →
    urlopen history (ds_url source) = Body text →
    yaml_safe_load text = YamlError msg →
    fetch_fails history source msg
| not_a_dictionary text data :
    ds_type source = Yaml →
    urlopen history (ds_url source) = Body text →
    yaml_safe_load text = Loaded data →
    (∀ entries, data ≠ YMap entries) →
    fetch_fails history source
      ("rosdep data from [" +:+ ds_url source +:+ "] is not a YAML dictionary")
| gbpdistro_failure msg :
    ds_type source = GbpDistro →
    download_gbpdistro_as_rosdep_data history (ds_url source) = GbpFailure msg →
    fetch_fails history source msg.

Lemma fetch_fails_raises (history : list string) (source : DataSource) (msg : string) :
  fetch_fails history source msg →
  fetch history source = Raise (DownloadFailure msg).
Proof.
  unfold fetch, download_rosdep_data.
  destruct 1 as [reason -> ->|text m -> -> ->|text data -> -> -> Hnot|m -> ->]; try done.
  destruct data; try done. by destruct (Hnot entries).
Qed.

(** The exceptions of the fetch of one source that are no
    [DownloadFailure]: [download_rosdep_data] lets them pass, and so does
    the loop of [update_sources_list]. *)
Inductive fetch_escapes (history : list string) (source : DataSource) : exn → Prop :=
| http_failure msg :
    ds_type source = Yaml →
    urlopen history (ds_url source) = HttpFailure msg →
    fetch_escapes history source (HTTPException msg)
| socket_failure msg :
    ds_type source = Yaml →
    urlopen history (ds_url source) = SocketFailure msg →
    fetch_escapes history source (SocketError msg).

Lemma fetch_escapes_raises (history : list string) (source : DataSource) (e : exn) :
  fetch_escapes history source e →
  fetch history source = Raise e ∧ ∀ msg, e ≠ DownloadFailure msg.
Proof.
  unfold fetch, download_rosdep_data. by destruct 1 as [msg -> ->|msg -> ->].
Qed.

Lemma fetch_raises (history : list string) (source : DataSource) (e : exn) :
  fetch history source = Raise e →
  (∃ msg, e = DownloadFailure msg ∧ fetch_fails history source msg)
  ∨ fetch_escapes history source e.
Proof.
  unfold fetch, download_rosdep_data.
  destruct (ds_type source) eqn:Htype.
  - destruct (urlopen history (ds_url source)) as [text|reason|m|m] eqn:Hopen.
    + destruct (yaml_safe_load text) as [data|m] eqn:Hload.
      * destruct data; intros [= <-]; left; eexists; (split; [done|]);
          by eapply not_a_dictionary.
      * intros [= <-]. left. eexists. split; [done|]. by eapply malformed_document.
    + intros [= <-]. left. eexists. split; [done|]. by eapply network_error.
    + intros [= <-]. right. by apply http_failure.
    + intros [= <-]. right. by apply socket_failure.
  - destruct (download_gbpdistro_as_rosdep_data _ _) as [data|m] eqn:Hgbp; [done|].
    intros [= <-]. left. eexists. split; [done|]. by eapply gbpdistro_failure.
Qed.

(** Where the cache entry of a source is written. *)
Definition cache_path (sources_cache_dir : string) (source : DataSource) : string :=
  OsPath.join sources_cache_dir (compute_filename_hash (ds_url source)).

Lemma write_cache_file_path (d key : string) (data : yaml) (fs : Fs.t) :
  (write_cache_file d key data fs).1 = OsPath.join d (compute_filename_hash key).
Proof. done. Qed.

Lemma write_cache_file_files (d key : string) (data : yaml) (fs : Fs.t) :
  Fs.files (write_cache_file d key data fs).2
  = <[OsPath.join d (compute_filename_hash key) := yaml_safe_dump data]> (Fs.files fs).
Proof. unfold write_cache_file. simpl. by destruct (negb _). Qed.

Variable success_handler : option (DataSource → Obs → Obs).
Variable error_handler : option (DataSource → exn → Obs → Obs).
Variable sources_cache_dir : string.

Abbreviation loop := (update_loop success_handler error_handler sources_cache_dir).

(** One turn of the loop for a source whose fetch fails. *)
Lemma update_loop_failure (source : DataSource) (rest : list DataSource)
    (retval : list (DataSource * string)) (st : state Obs) (msg : string) :
  fetch_fails (requests st) source msg →
  loop (source :: rest) retval st
  = loop rest retval
      (mk_state (fs st) (requests st ++ [ds_url source])
         (call_error error_handler source (DownloadFailure msg) (console st))).
Proof. intros Hfail%fetch_fails_raises. cbn [update_loop]. by rewrite Hfail. Qed.

(** One turn of the loop for a source that is fetched. *)
Lemma update_loop_success (source : DataSource) (rest : list DataSource)
    (retval : list (DataSource * string)) (st : state Obs) (data : yaml) :
  fetch (requests st) source = Ok data →
  loop (source :: rest) retval st
  = loop rest (retval ++ [(source, cache_path sources_cache_dir source)])
      (mk_state (write_cache_file sources_cache_dir (ds_url source) data (fs st)).2
         (requests st ++ [ds_url source])
         (call_success success_handler source (console st))).
Proof.
  intros Hok. cbn [update_loop]. by rewrite Hok.
Qed.

(** One turn of the loop for a source whose fetch raises what the loop
    does not catch: the exception leaves the loop, after the request and
    without a call of a handler. *)
Lemma update_loop_escape (source : DataSource) (rest : list DataSource)
    (retval : list (DataSource * string)) (st : state Obs) (e : exn) :
  fetch_escapes (requests st) source e →
  loop (source :: rest) retval st
  = (Raise e, mk_state (fs st) (requests st ++ [ds_url source]) (console st)).
Proof.
  intros Hescape. pose proof (fetch_escapes_raises _ _ _ Hescape) as [Hraise _].
  cbn [update_loop]. rewrite Hraise. by destruct Hescape.
Qed.

Lemma update_loop_app (before rest : list DataSource)
    (retval : list (DataSource * string)) (st : state Obs) :
  loop (before ++ rest) retval st
  = match loop before retval st with
    | (Ok r1, st1) => loop rest r1 st1
    | (Raise e, st1) => (Raise e, st1)
    end.
Proof.
  revert retval st. induction before as [|source before IH]; intros retval st; [done|].
  rewrite <- app_comm_cons.
  destruct (fetch (requests st) source) as [data|e] eqn:Hfetch.
  - by rewrite !(update_loop_success _ _ _ _ _ Hfetch), IH.
  - destruct (fetch_raises _ _ _ Hfetch) as [(msg & -> & Hfail)|Hescape].
    + by rewrite !(update_loop_failure _ _ _ _ _ Hfail), IH.
    + by rewrite !(update_loop_escape _ _ _ _ _ Hescape).
Qed.

(** The loop when it ends normally: it has asked for every source in
    turn, returns one pair for every source that was fetched, in the
    order of the list, has written the cache entry of each of them, and
    has written nothing else.  The entry of a source holds the data that
    were fetched for it, unless a later source of the list has the same
    cache path. *)
Lemma update_loop_spec (sources : list DataSource)
    (retval r : list (DataSource * string)) (st st' : state Obs) :
  loop sources retval st = (Ok r, st') →
  ∃ more,
    r = retval ++ more
    ∧ requests st' = requests st ++ map ds_url sources
    ∧ Fs.dirs (fs st) ⊆ Fs.dirs (fs st')
    ∧ dom (Fs.files (fs st)) ⊆ dom (Fs.files (fs st'))
    ∧ more `sublist_of` map (λ s, (s, cache_path sources_cache_dir s)) sources
    ∧ (∀ i source data,
         sources !! i = Some source →
         fetch (requests st ++ map ds_url (take i sources)) source = Ok data →
         (source, cache_path sources_cache_dir source) ∈ more
         ∧ ((∀ j later, i < j → sources !! j = Some later →
               cache_path sources_cache_dir later ≠ cache_path sources_cache_dir source) →
            Fs.files (fs st') !! cache_path sources_cache_dir source
            = Some (yaml_safe_dump data)))
    ∧ (∀ source p, (source, p) ∈ more → p ∈ dom (Fs.files (fs st')))
    ∧ (∀ p, p ∉ more.*2 → Fs.files (fs st') !! p = Fs.files (fs st) !! p).
Proof.
  revert retval r st st'.
  induction sources as [|source rest IH]; intros retval r st st'.
  - intros [= <- <-]. exists []. rewrite !app_nil_r. repeat split; try done.
    by intros s2 p ?%elem_of_nil.
  - destruct (fetch (requests st) source) as [data|e] eqn:Hfetch.
    + rewrite (update_loop_success _ _ _ _ _ Hfetch).
      intros (more & -> & Hreq & Hdirs & Hdom & Hsub & Hfetched & Hwritten & Hframe)%IH.
      cbn [fs requests console] in Hreq, Hdirs, Hdom, Hfetched, Hframe.
      rewrite write_cache_file_files in Hdom, Hframe.
      exists ((source, cache_path sources_cache_dir source) :: more).
      rewrite <- app_assoc. simpl. rewrite Hreq, <- app_assoc. simpl.
      split; [done|]. split; [done|]. split.
      { etrans; [|exact Hdirs]. clear. unfold write_cache_file. simpl.
        destruct (negb _); simpl; set_solver. }
      split; [clear -Hdom; set_solver|]. split; [by apply sublist_skip|]. split; [|split].
      * intros [|i] s2 d2; simpl.
        -- intros [= <-]. rewrite app_nil_r, Hfetch. intros [= <-].
           split; [by left|]. intros Hlater. rewrite Hframe.
           { by rewrite lookup_insert_eq. }
           intros ([s3 p3] & Hp3 & Hin3)%list_elem_of_fmap. simpl in Hp3.
           eapply sublist_submseteq, elem_of_submseteq in Hsub; [|exact Hin3].
           apply list_elem_of_fmap in Hsub as (later & [= -> ->] & Hrest).
           apply list_elem_of_lookup in Hrest as [k Hk].
           apply (Hlater (S k) later); [lia|done|done].
        -- intros Hi Hs2.
           destruct (Hfetched i s2 d2 Hi) as [Hmore Hdata]; [by rewrite <- app_assoc|].
           split; [by right|]. intros Hlater. apply Hdata.
           intros j later Hj Hl. apply (Hlater (S j) later); [lia|done].
      * intros s2 p [[= -> ->]|Hmore]%elem_of_cons; [|by eapply Hwritten].
        apply Hdom. clear. set_solver.
      * intros p [Hne Hp]%not_elem_of_cons. rewrite (Hframe p Hp).
        by rewrite lookup_insert_ne.
    + destruct (fetch_raises _ _ _ Hfetch) as [(msg & -> & Hfail)|Hescape];
        [|by rewrite (update_loop_escape _ _ _ _ _ Hescape)].
      rewrite (update_loop_failure _ _ _ _ _ Hfail).
      intros (more & -> & Hreq & Hdirs & Hdom & Hsub & Hfetched & Hwritten & Hframe)%IH.
      cbn [fs requests console] in Hreq, Hdirs, Hdom, Hfetched, Hframe.
      exists more. rewrite Hreq, <- app_assoc. simpl.
      split; [done|]. split; [done|]. split; [done|]. split; [done|].
      split; [by apply sublist_cons|]. split; [|done].
      intros [|i] s2 d2; simpl.
      * intros [= <-]. rewrite app_nil_r. congruence.
      * intros Hi Hs2.
        destruct (Hfetched i s2 d2 Hi) as [Hmore Hdata]; [by rewrite <- app_assoc|].
        split; [done|]. intros Hlater. apply Hdata.
        intros j later Hj Hl. apply (Hlater (S j) later); [lia|done].
Qed.

Abbreviation cache_index := (OsPath.join sources_cache_dir "index").

(** [update_from] when it returns: it has asked for every source, the
    pairs it returns are sources of the list with their cache paths,
    every source that was fetched is among them and has a cache entry
    with the data that were fetched, the index is written from the list
    of all sources, and no other file is written. *)
Lemma update_from_spec (sources : list DataSource) (st st' : state Obs)
    (retval : list (DataSource * string)) :
  update_from success_handler error_handler sources_cache_dir sources st
  = (Ok retval, st') →
  requests st' = requests st ++ map ds_url sources
  ∧ Fs.files (fs st') !! cache_index = Some (index_text sources)
  ∧ retval `sublist_of` map (λ s, (s, cache_path sources_cache_dir s)) sources
  ∧ (∀ i source data,
       sources !! i = Some source →
       fetch (requests st ++ map ds_url (take i sources)) source = Ok data →
       (source, cache_path sources_cache_dir source) ∈ retval
       ∧ (cache_path sources_cache_dir source ≠ cache_index →
          (∀ j later, i < j → sources !! j = Some later →
             cache_path sources_cache_dir later ≠ cache_path sources_cache_dir source) →
          Fs.files (fs st') !! cache_path sources_cache_dir source
          = Some (yaml_safe_dump data)))
  ∧ (∀ source p, (source, p) ∈ retval → is_Some (Fs.files (fs st') !! p))
  ∧ (∀ p, p ≠ cache_index → p ∉ retval.*2 →
       Fs.files (fs st') !! p = Fs.files (fs st) !! p).
Proof.
  unfold update_from.
  destruct (loop sources [] st) as [[r|e] st1] eqn:Hloop; [|done].
  apply update_loop_spec in Hloop
    as (more & -> & Hreq & _ & Hdom & Hsub & Hin & Hwritten & Hframe).
  intros [= <- <-]. cbn [fs requests console app].
  split; [done|].
  assert (Hfiles : ∀ fs0, Fs.files (Fs.write cache_index (index_text sources)
            (if negb (Fs.path_exists sources_cache_dir fs0)
             then Fs.makedirs sources_cache_dir fs0 else fs0))
          = <[cache_index := index_text sources]> (Fs.files fs0)).
  { intros fs0. by destruct (negb _). }
  rewrite Hfiles. split; [by rewrite lookup_insert_eq|]. split; [done|].
  split; [|split].
  - intros i source data Hi Hok. destruct (Hin i source data Hi Hok) as [Hmore Hdata].
    split; [done|]. intros Hne Hlater. rewrite lookup_insert_ne by done.
    by apply Hdata.
  - intros source p Hp. apply elem_of_dom. rewrite dom_insert.
    apply elem_of_union_r. by eapply Hwritten.
  - intros p Hne Hp. rewrite lookup_insert_ne by done. by apply Hframe.
Qed.

(** A source without a line break in its URL or tags. *)
Definition newline_free (source : DataSource) : Prop :=
  free_of "010" (ds_url source) = true
  ∧ Forall (λ t, free_of "010" t = true) (ds_tags source).

Lemma DataSource_init_fields (type_ u : string) (tg : list string) (o : option string)
    (x : DataSource) :
  DataSource_init type_ u tg o = Ok x →
  ds_url x = u ∧ ds_tags x = tg ∧ ds_origin x = o.
Proof.
  unfold DataSource_init. destruct (type_of_string type_); [|done].
  destruct (_ || _); [done|]. by intros [= <-].
Qed.

Lemma parse_lines_newline_free (origin : string) (lines : list string)
    (parsed : list DataSource) :
  Forall (λ l, free_of "010" l = true) lines →
  parse_lines DataSource_init origin lines = Ok parsed →
  Forall newline_free parsed.
Proof.
  intros Hlines. revert parsed.
  induction Hlines as [|raw lines Hraw _ IH]; intros parsed; simpl.
  - by intros [= <-].
  - destruct (negb (truthy (strip raw)) || startswith "#" (strip raw)); [by apply IH|].
    pose proof (split_pieces_keep_free " " "010" (strip raw)
                  (strip_keep_free _ _ Hraw)) as Htokens.
    destruct (split " " (strip raw)) as [|type_ [|u tg]]; [done..|].
    destruct (DataSource_init type_ u tg (Some origin)) as [x|[]] eqn:Hx; try done.
    destruct (parse_lines DataSource_init origin lines) as [xs|]; [|done].
    simpl. intros [= <-].
    apply DataSource_init_fields in Hx as (Hu & Ht & _).
    inversion_clear Htokens as [|?? _ Hrest]. inversion_clear Hrest as [|?? Hfu Hftg].
    constructor; [|by apply IH]. split; by rewrite ?Hu, ?Ht.
Qed.

Lemma parse_sources_list_newline_free (sources_list_dir : option string)
    (fs0 : Fs.t) (parsed : list DataSource) :
  parse_sources_list sources_list_dir fs0 = Ok parsed →
  Forall newline_free parsed.
Proof.
  unfold parse_sources_list.
  destruct (negb (Fs.path_exists _ fs0)); [by intros [= <-]|].
  destruct (Fs.listdir _ fs0) as [entries|]; [|done]. cbn [bind].
  generalize (merge_sort String.le (filter (λ f, endswith ".list" f = true) entries)).
  intros names. revert parsed.
  induction names as [|f names IH]; intros parsed; simpl; [by intros [= <-]|].
  unfold parse_sources_file at 1.
  destruct (Fs.read _ fs0) as [data|[]]; try done.
  unfold parse_sources_data.
  destruct (parse_lines _ _ _) as [here|] eqn:Hhere; [|done].
  destruct (parse_files _ names fs0) as [there|]; [|done].
  simpl. intros [= <-]. apply Forall_app. split; [|by apply IH].
  eapply parse_lines_newline_free; [|done]. apply split_pieces_free.
Qed.

Definition header_line : string :=
  "#autogenerated by rosdep, do not edit. use 'rosdep update' instead".

(** The line of the index for one source, without the line break. *)
Definition index_entry (source : DataSource) : string :=
  "yaml " +:+ ds_url source +:+ " " +:+ join " " (ds_tags source).

Lemma index_line_app (source : DataSource) (text : string) :
  index_line source +:+ text = index_entry source +:+ String "010" text.
Proof. unfold index_line, index_entry, nl. by rewrite !str_app_assoc. Qed.

Lemma index_entry_free (source : DataSource) :
  newline_free source → free_of "010" (index_entry source) = true.
Proof.
  intros [Hurl Htags]. unfold index_entry.
  rewrite !free_of_app, Hurl. by apply join_keep_free.
Qed.

(** The index has the header, one line for each source in the order of
    the list, and ends with a line break. *)
Lemma index_text_lines (sources : list DataSource) :
  Forall newline_free sources →
  split "010" (index_text sources) = header_line :: map index_entry sources ++ [""].
Proof.
  intros Hfree. unfold index_text, index_header, nl.
  rewrite str_app_assoc, (str_app_cons "010" ""), str_app_nil.
  rewrite split_app_sep by done. f_equal.
  induction Hfree as [|source rest Hsource _ IH]; [done|].
  cbn [foldr map]. rewrite index_line_app, split_app_sep, IH; [done|].
  by apply index_entry_free.
Qed.

End update_facts.

(** C3: when [update_sources_list] returns, having gone through all the
    sources, the index holds the list of all parsed sources, whatever
    became of their fetches: the header, then one line for each source
    in the order of the list.  No file but the index and the cache
    entries that are returned is written, so the entry of a source whose
    fetch failed is left as it was. *)
Theorem C3_index_lists_all_sources `{Env} {Obs : Type}
    (success_handler : option (DataSource → Obs → Obs))
    (error_handler : option (DataSource → exn → Obs → Obs))
    (sources_list_dir sources_cache_dir : option string)
    (st st' : state Obs) (retval : list (DataSource * string)) :
  update_sources_list success_handler error_handler sources_list_dir sources_cache_dir st
  = (Ok retval, st') →
  let cache_index := OsPath.join (default get_sources_cache_dir sources_cache_dir) "index" in
  ∃ sources,
    parse_sources_list sources_list_dir (fs st) = Ok sources
    ∧ Fs.read cache_index (fs st') = Ok (index_text sources)
    ∧ split "010" (index_text sources) = header_line :: map index_entry sources ++ [""]
    ∧ (∀ p, p ≠ cache_index → p ∉ retval.*2 →
         Fs.files (fs st') !! p = Fs.files (fs st) !! p).
Proof.
  unfold update_sources_list.
  destruct (parse_sources_list sources_list_dir (fs st)) as [sources|] eqn:Hparse;
    [|done].
  intros (_ & Hindex & _ & _ & _ & Hframe)%update_from_spec.
  exists sources. split; [done|]. split.
  { unfold Fs.read. by rewrite Hindex. }
  split; [|done].
  by eapply index_text_lines, parse_sources_list_newline_free.
Qed.

(** A sources list of three entries: the first is served, the second
    times out, the third is served a document that is a list. *)
Definition sample_list_dir : string := "/etc/ros/rosdep/sources.list.d".
Definition sample_list_file : string := "/etc/ros/rosdep/sources.list.d/20-default.list".

Definition sample_fs : Fs.t :=
  Fs.mk {[ sample_list_file :=
             "yaml http://example.org/a.yaml" +:+ nl
             +:+ "yaml http://example.org/b.yaml ubuntu" +:+ nl
             +:+ "yaml http://example.org/c.yaml" +:+ nl ]}
        {[ sample_list_dir ]}.

Definition sample_entry (u : string) (t : list string) : DataSource :=
  {| ds_type := Yaml; ds_url := u; ds_tags := t; ds_origin := Some sample_list_file |}.

Definition sample_sources : list DataSource :=
  [sample_entry "http://example.org/a.yaml" [];
   sample_entry "http://example.org/b.yaml" ["ubuntu"];
   sample_entry "http://example.org/c.yaml" []].

(** A handler that notes the URL of the source that failed. *)
Definition sample_on_error (source : DataSource) (e : exn) (seen : list string)
    : list string :=
  seen ++ [ds_url source].

Definition sample_state : state (list string) := mk_state sample_fs [] [].

Example sample_parse :
  @parse_sources_list LoaderFacts.sample_env (Some sample_list_dir) sample_fs
  = Ok sample_sources.
Proof. by vm_compute. Qed.

(** The same collaborators, but the server of the second source accepts
    the request and then sends nothing: reading the answer ends in
    [socket.timeout]. *)
Definition stalling_env : Env :=
  {| urlparse := LoaderFacts.sample_urlparse;
     sha1_hexdigest := @sha1_hexdigest LoaderFacts.sample_env;
     yaml_safe_load := @yaml_safe_load LoaderFacts.sample_env;
     yaml_safe_dump := @yaml_safe_dump LoaderFacts.sample_env;
     urlopen := λ history u,
       if endswith "b.yaml" u then SocketFailure "timed out"
       else @urlopen LoaderFacts.sample_env history u;
     download_gbpdistro_as_rosdep_data :=
       @download_gbpdistro_as_rosdep_data LoaderFacts.sample_env;
     ros_home := @ros_home LoaderFacts.sample_env |}.

(** C2: the failure of one source is to be reported to the error handler
    and the other sources are to be fetched and cached all the same.
    Here the fetch of the second of three sources ends in
    [socket.timeout], which [download_rosdep_data] does not turn into a
    [DownloadFailure]: the exception leaves [update_sources_list], the
    error handler has not been called, the third source has not been
    asked for, and the index has not been written. *)
Theorem C2_uncaught_fetch_error_aborts_update :
  @parse_sources_list stalling_env (Some sample_list_dir) sample_fs = Ok sample_sources
  ∧ (@update_sources_list stalling_env _ None (Some sample_on_error)
       (Some sample_list_dir) (Some "/var/cache/rosdep") sample_state).1
    = Raise (SocketError "timed out")
  ∧ console (@update_sources_list stalling_env _ None (Some sample_on_error)
       (Some sample_list_dir) (Some "/var/cache/rosdep") sample_state).2
    = []
  ∧ requests (@update_sources_list stalling_env _ None (Some sample_on_error)
       (Some sample_list_dir) (Some "/var/cache/rosdep") sample_state).2
    = ["http://example.org/a.yaml"; "http://example.org/b.yaml"]
  ∧ Fs.path_exists "/var/cache/rosdep/index"
      (fs (@update_sources_list stalling_env _ None (Some sample_on_error)
         (Some sample_list_dir) (Some "/var/cache/rosdep") sample_state).2)
    = false.
Proof. repeat split; vm_compute; reflexivity. Qed.

Lemma C3_index_lists_all_sources_witness :
  Fs.read "/var/cache/rosdep/index"
    (fs (@update_sources_list LoaderFacts.sample_env _ None (Some sample_on_error)
           (Some sample_list_dir) (Some "/var/cache/rosdep") sample_state).2)
  = Ok (index_text sample_sources).
Proof.
  destruct (@update_sources_list LoaderFacts.sample_env _ None (Some sample_on_error)
              (Some sample_list_dir) (Some "/var/cache/rosdep") sample_state)
    as [[retval|e] st'] eqn:Hupdate; [|vm_compute in Hupdate; discriminate Hupdate].
  destruct (@C3_index_lists_all_sources LoaderFacts.sample_env (list string) None
              (Some sample_on_error) (Some sample_list_dir) (Some "/var/cache/rosdep")
              sample_state st' retval Hupdate)
    as (sources & Hparse & Hindex & _).
  change (fs sample_state) with sample_fs in Hparse.
  rewrite sample_parse in Hparse. injection Hparse as <-.
  exact Hindex.
Defined.

End UpdateFacts.

(** ** The manifest resolver *)

Module ResolverFacts.
Import JFrog PyFacts.





Section resolver.
Context `{Env}.

(** What the download leaves alone. *)
Definition same_objects (st st' : state) : Prop :=
  rdmanifest_cache st' = rdmanifest_cache st ∧ heap st' = heap st.

Lemma same_objects_refl (st : state) : same_objects st st.
Proof. done. Qed.

Lemma same_objects_trans (st1 st2 st3 : state) :
  same_objects st1 st2 → same_objects st2 st3 → same_objects st1 st3.
Proof. intros [? ?] [? ?]. split; congruence. Qed.

Lemma run_jf_objects (target local : string) (st : state) :
  same_objects st (run_jf target local st).2.
Proof. done. Qed.

Lemma _sub_fetch_file_objects (u : string) (md5sum : option string) (st : state) :
  same_objects st (_sub_fetch_file u md5sum st).2.
Proof.
  unfold _sub_fetch_file. destruct (split "/" u !! 4%nat) as [repo|]; [|done].
  destruct (run_jf _ _ st) as [rc st1] eqn:Hjf.
  assert (Hst1 : same_objects st st1).
  { replace st1 with (run_jf (repo +:+ "/" +:+ join "/" (last_n 4 (split "/" u)))
                        (join "/" (last_n 4 (split "/" u))) st).2 by by rewrite Hjf.
    apply run_jf_objects. }
  destruct (negb _); [done|].
  destruct (Fs.read _ _); [|done].
  destruct md5sum as [m|]; [|done]. by destruct (_ && _).
Qed.

Lemma fetch_file_objects (u : string) (md5sum : option string) (st : state) :
  same_objects st (fetch_file u md5sum st).2.
Proof.
  unfold fetch_file. pose proof (_sub_fetch_file_objects u md5sum st) as Hsub.
  destruct (_sub_fetch_file u md5sum st) as [[contents|[]] st1]; done.
Qed.

(** [download_rdmanifest] touches neither cache nor heap, and the
    location it reports is the primary or the mirror. *)
Lemma download_rdmanifest_spec (u : string) (md5sum alt_url : option string)
    (st st' : state) (outcome : result (rdmanifest * string)) :
  download_rdmanifest u md5sum alt_url st = (outcome, st') →
  same_objects st st'
  ∧ ∀ m download_url, outcome = Ok (m, download_url) →
      download_url = u ∨ alt_url = Some download_url.
Proof.
  unfold download_rdmanifest.
  pose proof (fetch_file_objects u md5sum st) as H1.
  destruct (fetch_file u md5sum st) as [[got|e] st1]; simpl in H1;
    [|by intros [= <- <-]].
  assert (Hfinish : ∀ (d prefix : string) (got0 : string * string) (st0 : state)
      (outcome0 : result (rdmanifest * string)) (st0' : state),
    (if negb (truthy got0.1)
     then (Raise (DownloadFailed (prefix +:+ got0.2)), st0)
     else (bind (load_rdmanifest got0.1) (λ m, Ok (m, d)), st0)) = (outcome0, st0') →
    st0' = st0 ∧ ∀ m download_url, outcome0 = Ok (m, download_url) → download_url = d).
  { intros d prefix got0 st0 outcome0 st0'. destruct (negb _).
    - intros [= <- <-]. done.
    - intros [= <- <-]. split; [done|]. intros m download_url.
      destruct (load_rdmanifest _); simpl; congruence. }
  destruct alt_url as [alt|].
  - destruct (negb (truthy got.1) && truthy alt).
    + pose proof (fetch_file_objects alt md5sum st1) as H2.
      destruct (fetch_file alt md5sum st1) as [[got2|e] st2]; simpl in H2.
      * intros (-> & Hd)%Hfinish. split; [by eapply same_objects_trans|].
        intros m d ->%Hd. by right.
      * intros [= <- <-]. split; [by eapply same_objects_trans|done].
    + intros (-> & Hd)%Hfinish. split; [done|]. intros m d ->%Hd. by left.
  - intros (-> & Hd)%Hfinish. split; [done|]. intros m d ->%Hd. by left.
Qed.


(** What one call does to the installer: the heap is left alone, the
    cache only grows, and a resolution that is returned is in the cache
    under the primary or the mirror URL of the call. *)
Lemma resolve_spec (args : rosdep_args) (st st' : state)
    (outcome : result (list JFrogInstall)) :
  resolve args st = (outcome, st') →
  heap st' = heap st
  ∧ rdmanifest_cache st ⊆ rdmanifest_cache st'
  ∧ ∀ rs, outcome = Ok rs →
      ∃ key, (a_uri args = Some key ∨ a_alternate_uri args = Some key)
             ∧ rdmanifest_cache st' !! key = Some rs.
Proof.
  unfold resolve. destruct (a_uri args) as [u|] eqn:Hu; [|by intros [= <- <-]].
  simpl. destruct (rdmanifest_cache st !! u) as [hit|] eqn:Hfirst.
  { intros [= <- <-]. repeat split; [done|]. intros rs [= <-]. eauto. }
  unfold cached.
  destruct (a_alternate_uri args ≫= λ k, rdmanifest_cache st !! k) as [hit|] eqn:Hsecond.
  { intros [= <- <-]. repeat split; [done|]. intros rs [= <-].
    destruct (a_alternate_uri args) as [k|]; [|done]. eauto. }
  destruct (download_rdmanifest u (a_md5sum args) (a_alternate_uri args) st)
    as [got st1] eqn:Hdl.
  apply download_rdmanifest_spec in Hdl as [[Hcache Hheap] Hwhere].
  destruct got as [[m d]|e].
  - destruct (from_manifest m d) as [resolved|e] eqn:Hfrom.
    + intros [= <- <-]. simpl. split; [done|]. split.
      * rewrite Hcache. apply insert_subseteq.
        destruct (Hwhere m d eq_refl) as [->|Halt]; [done|].
        by rewrite Halt in Hsecond.
      * intros rs [= <-]. exists d. rewrite lookup_insert_eq. split; [|done].
        destruct (Hwhere m d eq_refl) as [->|Halt]; auto.
    + destruct e; intros [= <- <-]; by rewrite Hcache.
  - destruct e; intros [= <- <-]; by rewrite Hcache.
Qed.


(** The same call again, on any state with the cache that the first call
    left, gives the same resolutions and changes nothing. *)
Lemma resolve_again (args : rosdep_args) (st st1 st2 : state)
    (rs : list JFrogInstall) :
  resolve args st = (Ok rs, st1) →
  rdmanifest_cache st2 = rdmanifest_cache st1 →
  resolve args st2 = (Ok rs, st2).
Proof.
  unfold resolve, cached. destruct (a_uri args) as [u|] eqn:Hu; [|done].
  intros Hfirst Hsame.
  destruct (a_alternate_uri args) as [k|] eqn:Hk; simpl in *;
    rewrite !Hsame; revert Hfirst;
    (destruct (rdmanifest_cache st !! u) as [hit|] eqn:Hprimary;
       [intros [= <- <-]; by rewrite Hprimary|]).
  - destruct (rdmanifest_cache st !! k) as [hit|] eqn:Hmirror.
    { intros [= <- <-]. by rewrite Hprimary, Hmirror. }
    destruct (download_rdmanifest u (a_md5sum args) (Some k) st) as [got st'] eqn:Hdl.
    apply download_rdmanifest_spec in Hdl as [[Hcache _] Hwhere].
    destruct got as [[m d]|e]; [|by destruct e].
    destruct (from_manifest m d) as [resolved|e]; [|by destruct e].
    intros [= <- <-]. simpl. rewrite Hcache.
    destruct (Hwhere m d eq_refl) as [->|[= ->]].
    + by rewrite lookup_insert_eq.
    + destruct (decide (d = u)) as [->|Hne]; [by rewrite lookup_insert_eq|].
      by rewrite lookup_insert_ne, Hprimary, lookup_insert_eq.
  - destruct (download_rdmanifest u (a_md5sum args) None st) as [got st'] eqn:Hdl.
    apply download_rdmanifest_spec in Hdl as [[Hcache _] Hwhere].
    destruct got as [[m d]|e]; [|by destruct e].
    destruct (from_manifest m d) as [resolved|e]; [|by destruct e].
    intros [= <- <-]. simpl. rewrite Hcache.
    destruct (Hwhere m d eq_refl) as [->|[=]]. by rewrite lookup_insert_eq.
Qed.


Lemma extend_all_lookup (deps : positive) (rs : list JFrogInstall)
    (h : gmap positive (list string)) :
  extend_all deps rs h !! deps
  = (λ l, l ++ concat (map dependencies rs)) <$> h !! deps.
Proof.
  unfold extend_all. revert h. induction rs as [|r rs IH]; intros h; simpl.
  - destruct (h !! deps); simpl; [by rewrite app_nil_r|done].
  - rewrite IH, lookup_alter_eq. destruct (h !! deps); simpl; [|done].
    by rewrite app_assoc.
Qed.

Lemma extend_all_other (deps l : positive) (rs : list JFrogInstall)
    (h : gmap positive (list string)) :
  l ≠ deps → extend_all deps rs h !! l = h !! l.
Proof.
  intros Hne. unfold extend_all. revert h.
  induction rs as [|r rs IH]; intros h; simpl; [done|].
  by rewrite IH, lookup_alter_ne.
Qed.

(** C9: the list that [get_depends] returns is the list object under
    ['depends'] of the caller's arguments; the dependencies of the
    manifest are appended to it in place, and a second call appends them
    once more.  No other list of the heap changes. *)
Theorem C9_get_depends_extends_callers_list (args : rosdep_args) (st st1 : state)
    (rs : list JFrogInstall) (deps : positive) (old : list string) :
  a_depends args = Some deps →
  heap st !! deps = Some old →
  resolve args st = (Ok rs, st1) →
  let added := concat (map dependencies rs) in
  ∃ st2 st3,
    get_depends args st = (Ok deps, st2)
    ∧ heap st2 !! deps = Some (old ++ added)
    ∧ get_depends args st2 = (Ok deps, st3)
    ∧ heap st3 !! deps = Some (old ++ added ++ added)
    ∧ length (old ++ added ++ added) = length old + 2 * length added
    ∧ ∀ l, l ≠ deps → heap st3 !! l = heap st !! l.
Proof.
  intros Hdeps Hold Hcall added.
  destruct (resolve_spec _ _ _ _ Hcall) as (Hheap & _ & _).
  set (st2 := mk_state (fs st1) (jf_calls st1) (rdmanifest_cache st1)
                (extend_all deps rs (heap st1))).
  assert (Hagain : resolve args st2 = (Ok rs, st2)) by by eapply resolve_again.
  exists st2, (mk_state (fs st2) (jf_calls st2) (rdmanifest_cache st2)
                 (extend_all deps rs (heap st2))).
  unfold get_depends. rewrite Hdeps, Hcall, Hagain. simpl.
  rewrite !extend_all_lookup, Hheap, Hold. simpl.
  split; [subst st2; by rewrite Hheap|].
  split; [done|]. split; [done|].
  split; [by rewrite <- app_assoc|].
  split; [rewrite !length_app; lia|].
  intros l Hne. by rewrite !extend_all_other.
Qed.

End resolver.

(** *** A process for testing *)

Definition sample_tarball : string :=
  "https://artifactory.example.org/artifactory/ros/pkgs/foo/1.0/foo.tar.gz".
Definition sample_mirror : string :=
  "https://mirror.example.org/artifactory/mirror/pkgs/foo/1.0/foo.tar.gz".

Definition sample_manifest : rdmanifest :=
  {| m_install_script := Some "make install";
     m_check_presence_script := Some "test -f /usr/lib/libfoo.so";
     m_exec_path := Some "foo";
     m_uri := Some sample_tarball;
     m_alternate_uri := Some sample_mirror;
     m_md5sum := Some "md5:tarball";
     m_depends := Some ["bar"; "baz"] |}.

(** A manifest that lacks the required key. *)
Definition broken_manifest : rdmanifest :=
  {| m_install_script := Some "make install";
     m_check_presence_script := None; m_exec_path := None; m_uri := None;
     m_alternate_uri := None; m_md5sum := None; m_depends := None |}.

(** The server has the manifest [foo.rdmanifest], the manifest
    [broken.rdmanifest] without a URI, a corrupt tarball in the repository
    [ros] and the right one in the repository [mirror]. *)
Definition sample_env : Env :=
  {| jf_rt_dl := λ _ target,
       if endswith "broken.rdmanifest" target
       then {| returncode := 0; downloaded := Some "install-script: make install" |}
       else if endswith "foo.rdmanifest" target
       then {| returncode := 0; downloaded := Some "uri: foo.tar.gz" |}
       else if bool_decide (target = "ros/pkgs/foo/1.0/foo.tar.gz")
       then {| returncode := 0; downloaded := Some "corrupt" |}
       else if bool_decide (target = "mirror/pkgs/foo/1.0/foo.tar.gz")
       then {| returncode := 0; downloaded := Some "tarball" |}
       else {| returncode := 1; downloaded := None |};
     md5_hexdigest := λ contents, "md5:" +:+ contents;
     yaml_safe_load := λ contents,
       if startswith "uri:" contents then Parsed sample_manifest
       else if startswith "install-script:" contents then Parsed broken_manifest
       else ScannerError "mapping values are not allowed here";
     untar := λ contents,
       if bool_decide (contents = "tarball")
       then Some [("foo/install.sh", "make install")] else None;
     create_tempfile_from_string_and_execute := λ script _ fs,
       (bool_decide (script = "make install"), fs) |}.

Definition sample_args : rosdep_args :=
  {| a_uri := Some "https://artifactory.example.org/artifactory/ros/rdmanifests/foo/1.0/foo.rdmanifest";
     a_alternate_uri := None; a_md5sum := None; a_depends := Some 1%positive |}.

Definition broken_args : rosdep_args :=
  {| a_uri := Some "https://artifactory.example.org/artifactory/ros/rdmanifests/foo/1.0/broken.rdmanifest";
     a_alternate_uri := None; a_md5sum := None; a_depends := None |}.

(** The caller holds the list [["qux"]] at address 1 and passes it under
    ['depends']. *)
Definition sample_state : state := mk_state Fs.empty [] ∅ {[ 1%positive := ["qux"] ]}.

Definition sample_resolved : JFrogInstall :=
  {| manifest := sample_manifest;
     manifest_url := "https://artifactory.example.org/artifactory/ros/rdmanifests/foo/1.0/foo.rdmanifest";
     install_command := "make install";
     check_presence_command := "test -f /usr/lib/libfoo.so";
     exec_path := "foo";
     tarball := sample_tarball;
     alternate_tarball := Some sample_mirror;
     tarball_md5sum := Some "md5:tarball";
     dependencies := ["bar"; "baz"] |}.

Example sample_resolve :
  @resolve sample_env sample_args sample_state
  = (Ok [sample_resolved], (@resolve sample_env sample_args sample_state).2).
Proof. vm_compute. reflexivity. Qed.



Lemma C9_get_depends_extends_callers_list_witness :
  ∃ st2 st3,
    @get_depends sample_env sample_args sample_state = (Ok 1%positive, st2)
    ∧ heap st2 !! 1%positive = Some ["qux"; "bar"; "baz"]
    ∧ @get_depends sample_env sample_args st2 = (Ok 1%positive, st3)
    ∧ heap st3 !! 1%positive = Some ["qux"; "bar"; "baz"; "bar"; "baz"].
Proof.
  destruct (@C9_get_depends_extends_callers_list sample_env sample_args sample_state
              _ [sample_resolved] 1%positive ["qux"] eq_refl eq_refl sample_resolve)
    as (st2 & st3 & H1 & H2 & H3 & H4 & _).
  by exists st2, st3.
Defined.

End ResolverFacts.

(** ** The install pipeline *)

Module InstallFacts.
Import JFrog PyFacts.

Section install.
Context `{Env}.

(** After [shutil.rmtree(d)], whether it succeeded or not, there is no
    directory [d]. *)
Lemma rmtree_removes (d : string) (fs0 : Fs.t) :
  d ∉ Fs.dirs (Fs.rmtree d fs0).2.
Proof.
  unfold Fs.rmtree. case_bool_decide as Hd; simpl; [|done].
  intros [Hunder _]%elem_of_filter. unfold Fs.under in Hunder.
  by rewrite bool_decide_eq_true_2 in Hunder.
Qed.

(** The [finally] clause: however the body of the [try] statement ends,
    the working directory is gone afterwards. *)
Lemma try_finally_rmtree_cleans (resolved : JFrogInstall) (filename tempdir : string)
    (st : state) :
  tempdir ∉ Fs.dirs (fs (try_finally_rmtree resolved filename tempdir st).2).
Proof.
  unfold try_finally_rmtree.
  destruct (extract_and_run resolved filename tempdir (fs st)) as [outcome fs1].
  pose proof (rmtree_removes tempdir fs1) as Hgone.
  destruct (Fs.rmtree tempdir fs1) as [[[]|e] fs2]; done.
Qed.

(** The exits of [install_source] that lie inside the [try] statement:
    success, a tarball that cannot be read as an archive, and a failing
    install script.  On each of them the working directory is removed. *)
Lemma install_source_cleans_after_try (resolved : JFrogInstall) (st st' : state)
    (outcome : result unit) :
  install_source resolved st = (outcome, st') →
  outcome = Ok ()
  ∨ outcome = Raise (InstallFailed JFROG_INSTALLER
                       "installation script returned with error code")
  ∨ (∃ msg, outcome = Raise (ReadError msg)) →
  tempdir_of resolved ∉ Fs.dirs (fs st').
Proof.
  unfold install_source, tempdir_of.
  destruct (split "/" (tarball resolved) !! 4%nat) as [repo|];
    [|intros [= <- <-] [|[|[? ?]]]; done].
  destruct (jfrog_urlretrieve (tarball resolved) st) as [f st1].
  destruct (negb _); [intros [= <- <-] [|[|[? ?]]]; done|].
  destruct (check_md5sum resolved _ st1) as [[filename|e] st2] eqn:Hcheck.
  - intros Htry _.
    replace st' with (try_finally_rmtree resolved filename
      (OsPath.dirname (join "/" (last_n 4 (split "/" (tarball resolved))))) st2).2
      by by rewrite Htry.
    apply try_finally_rmtree_cleans.
  - intros [= <- <-] Hexit. exfalso. revert Hcheck. unfold check_md5sum.
    destruct (tarball_md5sum resolved) as [md5sum|]; [|done].
    destruct (truthy md5sum); [|done].
    destruct (get_file_hash _ (fs st1)) as [hash1|e1] eqn:Hhash1.
    2:{ intros [= <- <-]. unfold get_file_hash in Hhash1.
        destruct (Fs.read _ _) as [|e2] eqn:Hread; [done|].
        unfold Fs.read in Hread. destruct (Fs.files _ !! _); [done|].
        simpl in Hhash1. destruct Hexit as [|[|[? ?]]]; congruence. }
    destruct (negb _); [|done].
    destruct (alternate_tarball resolved) as [alternate|];
      [|intros [= <- <-]; destruct Hexit as [|[|[? ?]]]; done].
    destruct (truthy alternate);
      [|intros [= <- <-]; destruct Hexit as [|[|[? ?]]]; done].
    destruct (jfrog_urlretrieve alternate st1) as [f2 st3].
    destruct (get_file_hash f2.1 (fs st3)) as [hash2|e2] eqn:Hhash2.
    2:{ intros [= <- <-]. unfold get_file_hash in Hhash2.
        destruct (Fs.read _ _) as [|e3] eqn:Hread; [done|].
        unfold Fs.read in Hread. destruct (Fs.files _ !! _); [done|].
        simpl in Hhash2. destruct Hexit as [|[|[? ?]]]; congruence. }
    destruct (negb _); [|done].
    intros [= <- <-]. destruct Hexit as [|[|[? ?]]]; done.
Qed.

(** C4: with no checksum declared the verification is skipped and the
    tarball that was fetched is installed.  With a checksum that the
    primary tarball does not have and an alternate URI, the alternate is
    fetched and hashed: if it has the checksum, it is the file that is
    installed; if not, the call fails with an error that reports the
    expected checksum and the two that were found. *)
Theorem C4_checksum_and_mirror (resolved : JFrogInstall) (st st1 : state)
    (repo : string) (f : string * string) :
  let filename := join "/" (last_n 4 (split "/" (tarball resolved))) in
  let tempdir := OsPath.dirname filename in
  split "/" (tarball resolved) !! 4%nat = Some repo →
  jfrog_urlretrieve (tarball resolved) st = (f, st1) →
  f.1 = filename →
  (truthy_opt (tarball_md5sum resolved) = false →
   install_source resolved st = try_finally_rmtree resolved filename tempdir st1)
  ∧ (∀ (md5sum hash1 alternate hash2 : string) (f2 : string * string) (st2 : state),
       tarball_md5sum resolved = Some md5sum → truthy md5sum = true →
       get_file_hash filename (fs st1) = Ok hash1 → hash1 ≠ md5sum →
       alternate_tarball resolved = Some alternate → truthy alternate = true →
       jfrog_urlretrieve alternate st1 = (f2, st2) →
       get_file_hash f2.1 (fs st2) = Ok hash2 →
       (hash2 = md5sum →
        install_source resolved st = try_finally_rmtree resolved f2.1 tempdir st2)
       ∧ (hash2 ≠ md5sum →
          install_source resolved st
          = (Raise (InstallFailed "jfrog"
                      ("md5sum check on " +:+ tarball resolved +:+ " and " +:+ alternate
                       +:+ " failed.  Expected " +:+ md5sum +:+ " got " +:+ hash1
                       +:+ " and " +:+ hash2)), st2))).
Proof.
  intros filename tempdir Hrepo Hfetch Hf.
  unfold install_source. rewrite Hrepo, Hfetch.
  fold filename. fold tempdir. rewrite bool_decide_eq_true_2 by done. simpl.
  unfold check_md5sum. split.
  - intros Hnone. destruct (tarball_md5sum resolved) as [md5sum|]; [|done].
    simpl in Hnone. by rewrite Hnone.
  - intros md5sum hash1 alternate hash2 f2 st2 -> -> -> Hne1 -> -> -> ->.
    rewrite (bool_decide_eq_false_2 (md5sum = hash1)) by done. simpl. split.
    + intros ->. by rewrite bool_decide_eq_true_2.
    + intros Hne2. by rewrite bool_decide_eq_false_2.
Qed.

End install.

Import ResolverFacts.

(** The state after the two downloads of the sample installation. *)
Definition after_primary : state :=
  (@jfrog_urlretrieve sample_env sample_tarball sample_state).2.
Definition after_mirror : state :=
  (@jfrog_urlretrieve sample_env sample_mirror after_primary).2.

Lemma C4_checksum_and_mirror_witness :
  @install_source sample_env sample_resolved sample_state
  = @try_finally_rmtree sample_env sample_resolved "pkgs/foo/1.0/foo.tar.gz"
      "pkgs/foo/1.0" after_mirror.
Proof.
  refine (proj1 (proj2 (@C4_checksum_and_mirror sample_env sample_resolved sample_state
            after_primary "ros" ("pkgs/foo/1.0/foo.tar.gz", "") eq_refl _ eq_refl)
            "md5:tarball" "md5:corrupt" sample_mirror "md5:tarball"
            ("pkgs/foo/1.0/foo.tar.gz", "") after_mirror
            eq_refl eq_refl _ _ eq_refl eq_refl _ _) eq_refl).
  - vm_compute. reflexivity.
  - vm_compute. reflexivity.
  - discriminate.
  - vm_compute. reflexivity.
  - vm_compute. reflexivity.
Defined.

(** The sample installation ends normally and leaves no working
    directory. *)
Example sample_install :
  (@install_source sample_env sample_resolved sample_state).1 = Ok ()
  ∧ Fs.path_exists "pkgs/foo/1.0"
      (fs (@install_source sample_env sample_resolved sample_state).2) = false.
Proof. split; vm_compute; reflexivity. Qed.

(** The sample without its mirror: the primary tarball is all there is. *)
Definition unmirrored : JFrogInstall :=
  {| manifest := sample_manifest;
     manifest_url := manifest_url sample_resolved;
     install_command := "make install";
     check_presence_command := "test -f /usr/lib/libfoo.so";
     exec_path := "foo";
     tarball := sample_tarball;
     alternate_tarball := None;
     tarball_md5sum := Some "md5:tarball";
     dependencies := ["bar"; "baz"] |}.

(** C1: the working directory is to be gone when [install_source]
    returns, also when the checksum does not verify.  Here the tarball
    that is fetched does not have the declared checksum and there is no
    alternate: the call raises [InstallFailed] from before the [try]
    statement, and the working directory [pkgs/foo/1.0] is still there. *)
Theorem C1_checksum_failure_leaves_tempdir :
  (@install_source sample_env unmirrored sample_state).1
  = Raise (InstallFailed "jfrog"
      ("md5sum check on " +:+ sample_tarball
       +:+ " failed.  Expected md5:tarball got md5:corrupt "))
  ∧ tempdir_of unmirrored = "pkgs/foo/1.0"
  ∧ Fs.path_exists "pkgs/foo/1.0"
      (fs (@install_source sample_env unmirrored sample_state).2) = true
  ∧ Fs.path_exists "pkgs/foo/1.0/foo.tar.gz"
      (fs (@install_source sample_env unmirrored sample_state).2) = true.
Proof. repeat split; vm_compute; reflexivity. Qed.

End InstallFacts.

(** * Further properties *)

(** ** More on Python strings *)

Module StripFacts.
Import PyFacts.

(** The last character of a string. *)
Fixpoint last_char (s : string) : option ascii :=
  match s with
  | "" => None
  | String c r => match last_char r with Some d => Some d | None => Some c end
  end.

(** The string is not empty and does not end in white space. *)
Definition ends_clean (s : string) : bool :=
  match last_char s with
  | Some c => negb (Ascii.is_space c)
  | None => false
  end.

Lemma last_char_None (s : string) : last_char s = None ↔ s = "".
Proof.
  destruct s as [|c r]; simpl; [done|].
  split; [|done]. by destruct (last_char r).
Qed.

Lemma last_char_app (a b : string) :
  last_char (a +:+ b)
  = match last_char b with Some d => Some d | None => last_char a end.
Proof.
  induction a as [|x a IH].
  - rewrite str_app_nil. by destruct (last_char b).
  - rewrite str_app_cons. simpl. rewrite IH.
    by destruct (last_char b), (last_char a).
Qed.

Lemma rstrip_clean (s : string) : ends_clean s = true → rstrip s = s.
Proof.
  unfold ends_clean. induction s as [|c r IH]; [done|]. simpl.
  destruct (last_char r) as [d|] eqn:Hlast.
  - intros Hd. rewrite IH by done. destruct r; [done|done].
  - apply last_char_None in Hlast as ->. simpl.
    intros Hc%negb_true_iff. by rewrite Hc.
Qed.

(** Trailing white space is dropped. *)
Lemma rstrip_app_space (s : string) (c : ascii) :
  Ascii.is_space c = true → rstrip (s +:+ String c "") = rstrip s.
Proof.
  intros Hc. induction s as [|x s IH].
  - rewrite str_app_nil. simpl. by rewrite Hc.
  - rewrite str_app_cons. simpl. by rewrite IH.
Qed.

Lemma rstrip_result (s : string) : rstrip s = "" ∨ ends_clean (rstrip s) = true.
Proof.
  unfold ends_clean. induction s as [|c r IH]; [by left|]. simpl.
  destruct (rstrip r) as [|y r'] eqn:Hr.
  - destruct (Ascii.is_space c) eqn:Hc; [by left|]. right. simpl. by rewrite Hc.
  - right. destruct IH as [|IH]; [done|]. simpl in *.
    by destruct (last_char r').
Qed.

Lemma lstrip_clean (s : string) :
  ends_clean s = true → ends_clean (lstrip s) = true.
Proof.
  unfold ends_clean. induction s as [|c r IH]; [done|]. simpl.
  destruct (Ascii.is_space c) eqn:Hc; [|done].
  destruct (last_char r) as [d|] eqn:Hlast; [by intros; apply IH|].
  simpl. by rewrite Hc.
Qed.

(** A line that [strip] leaves non-empty ends in a character that is no
    white space. *)
Lemma strip_clean (s : string) :
  truthy (strip s) = true → ends_clean (strip s) = true.
Proof.
  unfold strip. destruct (rstrip_result s) as [->|Hclean]; [done|].
  intros _. by apply lstrip_clean.
Qed.

Lemma join_cons (sep x y : string) (l : list string) :
  join sep (x :: y :: l) = x +:+ sep +:+ join sep (y :: l).
Proof. done. Qed.

(** The pieces of [split], put together again. *)
Lemma split_join (c : ascii) (l : list string) :
  l ≠ [] →
  Forall (λ piece, free_of c piece = true) l →
  split c (join (String c "") l) = l.
Proof.
  intros Hne Hfree. induction Hfree as [|x l Hx Hl IH]; [done|].
  destruct l as [|y l]; [by apply split_free|].
  rewrite join_cons, (str_app_cons c ""), str_app_nil.
  rewrite split_app_sep by done. by rewrite IH.
Qed.

(** The last piece of [split] ends as the string does. *)
Lemma split_last (c d : ascii) (s : string) :
  last_char s = Some d → d ≠ c →
  ∃ init lst, split c s = init ++ [lst] ∧ last_char lst = Some d.
Proof.
  induction s as [|x r IH]; [done|]. simpl.
  destruct (last_char r) as [d'|] eqn:Hlast.
  - intros [= ->] Hne. destruct (IH eq_refl Hne) as (init & lst & Hsplit & Hlst).
    rewrite Hsplit. destruct (decide (x = c)).
    + by exists ("" :: init), lst.
    + destruct init as [|h init]; simpl.
      * exists [], (String x lst). split; [done|]. simpl. by rewrite Hlst.
      * by exists (String x h :: init), lst.
  - apply last_char_None in Hlast as ->. intros [= ->] Hne. simpl.
    rewrite decide_False by done. by exists [], (String d "").
Qed.

Lemma join_last (sep : string) (init : list string) (lst : string) :
  lst ≠ "" → last_char (join sep (init ++ [lst])) = last_char lst.
Proof.
  intros Hne. induction init as [|x init IH]; [done|].
  cbn [app]. destruct (init ++ [lst]) as [|y l] eqn:Hl.
  { by destruct init. }
  rewrite join_cons, !last_char_app, IH.
  destruct (last_char lst) eqn:Hlast; [done|]. by apply last_char_None in Hlast.
Qed.

End StripFacts.

(** ** The index read back *)

Module RoundTripFacts.
Import SourcesList PyFacts StripFacts UpdateFacts.

Local Arguments startswith : simpl never.

(** A token of a stripped line: it has no blank and no line break. *)
Definition token_ok (t : string) : Prop :=
  free_of " " t = true ∧ free_of "010" t = true.

(** The tokens of a stripped line: the last one does not end in white
    space. *)
Definition tokens_ok (tokens : list string) : Prop :=
  Forall token_ok tokens
  ∧ ∃ init lst, tokens = init ++ [lst] ∧ ends_clean lst = true.

(** A source whose URL and tags are the tokens of a line. *)
Definition reparsable (source : DataSource) : Prop :=
  tokens_ok (ds_url source :: ds_tags source).

Lemma ends_clean_not_blank (s : string) (d : ascii) :
  last_char s = Some d → ends_clean s = true → d ≠ " "%char.
Proof. unfold ends_clean. intros -> Hd ->. done. Qed.

Lemma line_tokens_ok (raw : string) :
  free_of "010" raw = true →
  truthy (strip raw) = true →
  tokens_ok (split " " (strip raw)).
Proof.
  intros Hraw Hline. split.
  - apply Forall_and. split; [apply split_pieces_free|].
    by apply split_pieces_keep_free, strip_keep_free.
  - pose proof (strip_clean raw Hline) as Hclean.
    destruct (last_char (strip raw)) as [d|] eqn:Hlast;
      [|by unfold ends_clean in Hclean; rewrite Hlast in Hclean].
    destruct (split_last " " d (strip raw) Hlast) as (init & lst & Hsplit & Hlst).
    { by eapply ends_clean_not_blank. }
    exists init, lst. split; [done|].
    unfold ends_clean in *. rewrite Hlst. by rewrite Hlast in Hclean.
Qed.

Lemma tokens_ok_tail (t u : string) (tg : list string) :
  tokens_ok (t :: u :: tg) → tokens_ok (u :: tg).
Proof.
  intros [Hall (init & lst & Heq & Hlst)]. split; [by inversion Hall|].
  destruct init as [|t' init]; [done|].
  injection Heq as _ Heq. by exists init, lst.
Qed.

Section round_trip.
Context `{Env}.

Lemma parse_lines_reparsable (origin : string) (lines : list string)
    (parsed : list DataSource) :
  Forall (λ l, free_of "010" l = true) lines →
  parse_lines DataSource_init origin lines = Ok parsed →
  Forall reparsable parsed.
Proof.
  intros Hlines. revert parsed.
  induction Hlines as [|raw lines Hraw _ IH]; intros parsed; simpl.
  - by intros [= <-].
  - destruct (truthy (strip raw)) eqn:Hline; simpl; [|by apply IH].
    destruct (startswith "#" (strip raw)); [by apply IH|].
    pose proof (line_tokens_ok raw Hraw Hline) as Htokens.
    destruct (split " " (strip raw)) as [|type_ [|u tg]]; [done..|].
    destruct (DataSource_init type_ u tg (Some origin)) as [x|[]] eqn:Hx; try done.
    destruct (parse_lines DataSource_init origin lines) as [xs|]; [|done].
    simpl. intros [= <-].
    apply DataSource_init_fields in Hx as (Hu & Ht & _).
    constructor; [|by apply IH].
    unfold reparsable. rewrite Hu, Ht. by eapply tokens_ok_tail.
Qed.

Lemma parse_sources_list_reparsable (sources_list_dir : option string)
    (fs0 : Fs.t) (parsed : list DataSource) :
  parse_sources_list sources_list_dir fs0 = Ok parsed →
  Forall reparsable parsed.
Proof.
  unfold parse_sources_list.
  destruct (negb (Fs.path_exists _ fs0)); [by intros [= <-]|].
  destruct (Fs.listdir _ fs0) as [entries|]; [|done]. cbn [bind].
  generalize (merge_sort String.le (filter (λ f, endswith ".list" f = true) entries)).
  intros names. revert parsed.
  induction names as [|f names IH]; intros parsed; simpl; [by intros [= <-]|].
  unfold parse_sources_file at 1.
  destruct (Fs.read _ fs0) as [data|[]]; try done.
  unfold parse_sources_data.
  destruct (parse_lines _ _ _) as [here|] eqn:Hhere; [|done].
  destruct (parse_files _ names fs0) as [there|]; [|done].
  simpl. intros [= <-]. apply Forall_app. split; [|by apply IH].
  eapply parse_lines_reparsable; [|done]. apply split_pieces_free.
Qed.

Lemma reparsable_newline_free (source : DataSource) :
  reparsable source → newline_free source.
Proof.
  intros [Hall _]. inversion_clear Hall as [|?? [_ Hurl] Htags]. split; [done|].
  eapply Forall_impl; [done|]. by intros t [_ ?].
Qed.

(** The line of the index for a source, stripped, is its tokens joined
    by single blanks. *)
Lemma index_entry_strip (source : DataSource) :
  reparsable source →
  strip (index_entry source)
  = join " " ("yaml" :: ds_url source :: ds_tags source).
Proof.
  intros [_ (init & lst & Heq & Hlst)].
  set (line := join " " ("yaml" :: ds_url source :: ds_tags source)).
  assert (Hclean : ends_clean line = true).
  { unfold ends_clean, line. rewrite Heq, app_comm_cons.
    rewrite (join_last " " ("yaml" :: init) lst); [done|].
    intros ->. done. }
  assert (Hstrip : strip line = line).
  { unfold strip. rewrite rstrip_clean by done. unfold line.
    by rewrite join_cons, (str_app_cons "y"). }
  unfold index_entry. destruct (ds_tags source) as [|t ts] eqn:Htags.
  - replace ("yaml " +:+ ds_url source +:+ " " +:+ join " " [])
      with (line +:+ String " " "").
    + unfold strip. rewrite rstrip_app_space by done. exact Hstrip.
    + unfold line. rewrite join_cons. simpl join. by rewrite !str_app_assoc.
  - exact Hstrip.
Qed.

Lemma index_entry_tokens (source : DataSource) :
  reparsable source →
  truthy (strip (index_entry source)) = true
  ∧ startswith "#" (strip (index_entry source)) = false
  ∧ split " " (strip (index_entry source))
    = "yaml" :: ds_url source :: ds_tags source.
Proof.
  intros Hsource. rewrite index_entry_strip by done.
  split; [by rewrite join_cons, (str_app_cons "y")|].
  split; [by rewrite join_cons, (str_app_cons "y")|].
  apply (split_join " "); [done|].
  destruct Hsource as [Hall _]. constructor; [done|].
  eapply Forall_impl; [done|]. by intros t [? _].
Qed.

(** Parsing the lines of the index is calling the model once for each
    source, in order, with the type [yaml], the URL and the tags. *)
Lemma parse_index_entries {A} (model : string → string → list string → option string → result A)
    (origin : string) (sources : list DataSource) (xs : list A) :
  Forall reparsable sources →
  parse_lines model origin (map index_entry sources ++ [""]) = Ok xs
  ↔ Forall2 (λ source x,
       model "yaml" (ds_url source) (ds_tags source) (Some origin) = Ok x) sources xs.
Proof.
  intros Hall. revert xs. induction Hall as [|source rest Hsource _ IH]; intros xs.
  - simpl. split; [intros [= <-]; constructor|by intros ->%Forall2_nil_inv_l].
  - destruct (index_entry_tokens source Hsource) as (Hline & Hcomment & Htokens).
    cbn [map app].
    rewrite (ParseFacts.parse_lines_tokens model origin _ _ _ _ _ Hline Hcomment Htokens).
    destruct (model "yaml" (ds_url source) (ds_tags source) (Some origin))
      as [x|e] eqn:Hmodel.
    + destruct (parse_lines model origin (map index_entry rest ++ [""]))
        as [ys|e] eqn:Hrest; simpl.
      * split.
        -- intros [= <-]. constructor; [done|]. by apply IH.
        -- intros (x' & ys' & Hx & Hys & ->)%Forall2_cons_inv_l.
           apply IH in Hys. congruence.
      * split; [done|].
        intros (x' & ys' & Hx & Hys & ->)%Forall2_cons_inv_l.
        by apply IH in Hys.
    + split.
      * by destruct e.
      * intros (x' & ys' & Hx & _)%Forall2_cons_inv_l. congruence.
Qed.

Lemma parse_index_text {A}
    (model : string → string → list string → option string → result A)
    (origin : string) (sources : list DataSource) (xs : list A) :
  Forall reparsable sources →
  parse_sources_data (index_text sources) origin model = Ok xs
  ↔ Forall2 (λ source x,
       model "yaml" (ds_url source) (ds_tags source) (Some origin) = Ok x) sources xs.
Proof.
  intros Hall. unfold parse_sources_data. rewrite index_text_lines.
  - change (parse_lines model origin (header_line :: ?rest))
      with (parse_lines model origin rest).
    by apply parse_index_entries.
  - eapply Forall_impl; [done|]. apply reparsable_newline_free.
Qed.

(** X1: the index that [update_sources_list] writes for a parsed sources
    list parses back, with any model, to one entry for each source, in
    order: the model is called with the type [yaml], whatever the type of
    the source was, and with its URL and tags. *)
Theorem index_parses_back {A}
    (model : string → string → list string → option string → result A)
    (sources_list_dir : option string) (fs0 : Fs.t) (sources : list DataSource)
    (origin : string) (xs : list A) :
  parse_sources_list sources_list_dir fs0 = Ok sources →
  parse_sources_data (index_text sources) origin model = Ok xs
  ↔ Forall2 (λ source x,
       model "yaml" (ds_url source) (ds_tags source) (Some origin) = Ok x) sources xs.
Proof. intros Hall%parse_sources_list_reparsable. by apply parse_index_text. Qed.

(** What the loader of cached entries makes of its arguments. *)
Lemma cache_data_source_loader_fields (sources_cache_dir : string) (fs0 : Fs.t)
    (type_ u : string) (tg : list string) (o : option string) (c : CachedDataSource) :
  cache_data_source_loader sources_cache_dir fs0 type_ u tg o = Ok c →
  url c = u ∧ tags c = tg ∧ type_of_string type_ = Some (type c)
  ∧ origin c = Some (OsPath.join sources_cache_dir (compute_filename_hash u)).
Proof.
  unfold cache_data_source_loader, CachedDataSource_init, DataSource_init.
  destruct (if Fs.path_exists _ fs0 then _ else _) as [data|]; [|done]. simpl.
  destruct (type_of_string type_) as [t|]; [|done]. simpl.
  destruct (_ || _); [done|]. by intros [= <-].
Qed.

(** X2: after [update_sources_list], what [load_cached_sources_list] loads
    from the same cache directory is one cached source for each source
    of the sources list, in order, with its URL and tags, and with the
    type [yaml]. *)
Theorem load_after_update {Obs : Type}
    (success_handler : option (DataSource → Obs → Obs))
    (error_handler : option (DataSource → exn → Obs → Obs))
    (sources_list_dir sources_cache_dir : option string)
    (st st' : state Obs) (retval : list (DataSource * string))
    (cached : list CachedDataSource) :
  update_sources_list success_handler error_handler sources_list_dir sources_cache_dir st
  = (Ok retval, st') →
  load_cached_sources_list sources_cache_dir (fs st') = Ok cached →
  ∃ sources,
    parse_sources_list sources_list_dir (fs st) = Ok sources
    ∧ map url cached = map ds_url sources
    ∧ map tags cached = map ds_tags sources
    ∧ Forall (λ c, type c = Yaml) cached.
Proof.
  unfold update_sources_list, load_cached_sources_list.
  destruct (parse_sources_list sources_list_dir (fs st)) as [sources|] eqn:Hparse;
    [|done].
  set (dir := default get_sources_cache_dir sources_cache_dir).
  intros (_ & Hindex & _)%update_from_spec.
  unfold Fs.path_exists, Fs.read. rewrite Hindex.
  rewrite (bool_decide_eq_true_2 (is_Some (Some _))) by eauto.
  rewrite orb_true_r. simpl.
  intros Hload. exists sources. split; [done|].
  apply parse_index_text in Hload; [|by eapply parse_sources_list_reparsable].
  clear Hparse Hindex.
  induction Hload as [|source c rest cs Hc _ IH]; [by repeat split|].
  apply cache_data_source_loader_fields in Hc as (Hu & Ht & Hy & _).
  destruct IH as (IHu & IHt & IHy).
  unfold type_of_string in Hy. simpl in *.
  rewrite Hu, Ht, IHu, IHt. split; [done|]. split; [done|].
  constructor; [congruence|done].
Qed.

End round_trip.

Lemma index_parses_back_witness :
  parse_sources_data (index_text sample_sources) "/var/cache/rosdep/index"
    ParseFacts.record_model
  = Ok [("yaml", "http://example.org/a.yaml", []);
        ("yaml", "http://example.org/b.yaml", ["ubuntu"]);
        ("yaml", "http://example.org/c.yaml", [])].
Proof.
  apply (@index_parses_back LoaderFacts.sample_env _ ParseFacts.record_model
           (Some sample_list_dir) sample_fs sample_sources _ _ sample_parse).
  by repeat constructor.
Defined.

(** The update of the sample sources list, and the load that follows. *)
Definition sample_updated : state (list string) :=
  (@update_sources_list LoaderFacts.sample_env _ None (Some sample_on_error)
     (Some sample_list_dir) (Some "/var/cache/rosdep") sample_state).2.

Example sample_update :
  @update_sources_list LoaderFacts.sample_env _ None (Some sample_on_error)
    (Some sample_list_dir) (Some "/var/cache/rosdep") sample_state
  = (Ok [(sample_entry "http://example.org/a.yaml" [],
          "/var/cache/rosdep/sha1-lmay.a/gro.elpmaxe//:ptth")], sample_updated).
Proof. vm_compute. reflexivity. Qed.

Lemma load_after_update_witness :
  ∃ cached,
    @load_cached_sources_list LoaderFacts.sample_env (Some "/var/cache/rosdep")
      (fs sample_updated) = Ok cached
    ∧ map url cached = ["http://example.org/a.yaml"; "http://example.org/b.yaml";
                        "http://example.org/c.yaml"]
    ∧ map tags cached = [[]; ["ubuntu"]; []].
Proof.
  destruct (@load_cached_sources_list LoaderFacts.sample_env (Some "/var/cache/rosdep")
              (fs sample_updated)) as [cached|e] eqn:Hload;
    [|vm_compute in Hload; discriminate Hload].
  exists cached. split; [done|].
  destruct (@load_after_update LoaderFacts.sample_env (list string) None
              (Some sample_on_error) (Some sample_list_dir) (Some "/var/cache/rosdep")
              sample_state sample_updated _ cached sample_update Hload)
    as (sources & Hparse & Hurls & Htags & _).
  change (fs sample_state) with sample_fs in Hparse.
  rewrite sample_parse in Hparse. injection Hparse as <-.
  split; [exact Hurls|exact Htags].
Defined.

End RoundTripFacts.

(** ** More on the sources list and its cache *)

Module SourcesExtras.
Import SourcesList PyFacts UpdateFacts.

Local Arguments startswith : simpl never.

(** X3: what [matches] decides: the source matches when each of its
    tags, the empty string apart, is one of the matcher's tags. *)
Theorem matches_nonempty_tags `{DataSourceLike A} (self : DataSourceMatcher) (x : A) :
  matches self x = true ↔ ∀ t, t ∈ tags x → t ≠ "" → t ∈ matcher_tags self.
Proof. apply MatcherFacts.matches_iff. Qed.

(** A line that is an entry: not empty when stripped, and no comment. *)
Definition is_entry (raw : string) : bool :=
  truthy (strip raw) && negb (startswith "#" (strip raw)).

Lemma parse_lines_skip {A}
    (model : string → string → list string → option string → result A)
    (origin raw : string) (lines : list string) :
  is_entry raw = false →
  parse_lines model origin (raw :: lines) = parse_lines model origin lines.
Proof.
  unfold is_entry. simpl.
  by destruct (truthy (strip raw)), (startswith "#" (strip raw)).
Qed.

Lemma parse_lines_entry {A}
    (model : string → string → list string → option string → result A)
    (origin raw : string) (lines lines' : list string) :
  is_entry raw = true →
  parse_lines model origin lines = parse_lines model origin lines' →
  parse_lines model origin (raw :: lines) = parse_lines model origin (raw :: lines').
Proof.
  unfold is_entry. intros [Hline Hcomment%negb_true_iff]%andb_true_iff Hsame.
  simpl. rewrite Hline, Hcomment. simpl.
  destruct (split " " (strip raw)) as [|type_ [|u tg]]; [done..|].
  by rewrite Hsame.
Qed.

Lemma parse_entry_lines {A}
    (model : string → string → list string → option string → result A)
    (origin : string) (lines : list string) :
  parse_lines model origin lines
  = parse_lines model origin (filter (λ raw, is_entry raw = true) lines).
Proof.
  induction lines as [|raw lines IH]; [done|].
  rewrite filter_cons. destruct (decide (is_entry raw = true)) as [Hentry|Hskip].
  - by apply parse_lines_entry.
  - apply not_true_is_false in Hskip. by rewrite parse_lines_skip.
Qed.

Lemma lstrip_idem (s : string) : lstrip (lstrip s) = lstrip s.
Proof.
  induction s as [|c r IH]; [done|]. simpl.
  destruct (Ascii.is_space c) eqn:Hc; [done|]. simpl. by rewrite Hc.
Qed.

(** Stripping twice is stripping once. *)
Lemma strip_idem (s : string) : strip (strip s) = strip s.
Proof.
  destruct (truthy (strip s)) eqn:Hline.
  - unfold strip at 1. rewrite StripFacts.rstrip_clean by by apply StripFacts.strip_clean.
    unfold strip. apply lstrip_idem.
  - apply truthy_false in Hline. by rewrite Hline.
Qed.

Lemma parse_lines_stripped {A}
    (model : string → string → list string → option string → result A)
    (origin : string) (lines : list string) :
  parse_lines model origin lines = parse_lines model origin (map strip lines).
Proof.
  induction lines as [|raw lines IH]; [done|].
  simpl. by rewrite strip_idem, IH.
Qed.

(** X6: empty lines, comments and the white space around a line do not
    count: two documents with the same entry lines, stripped and in the
    same order, parse alike, to the same sources or to the same error. *)
Theorem parse_ignores_comments {A}
    (model : string → string → list string → option string → result A)
    (data data' origin : string) :
  map strip (filter (λ raw, is_entry raw = true) (split "010" data))
  = map strip (filter (λ raw, is_entry raw = true) (split "010" data')) →
  parse_sources_data data origin model = parse_sources_data data' origin model.
Proof.
  intros Hsame. unfold parse_sources_data.
  rewrite (parse_entry_lines _ _ (split "010" data)), parse_lines_stripped, Hsame.
  by rewrite <- parse_lines_stripped, <- parse_entry_lines.
Qed.

Lemma parse_ignores_comments_witness :
  parse_sources_data
    ("# the default sources" +:+ nl +:+ nl +:+ "  yaml http://example.org/a.yaml"
     +:+ nl +:+ "#yaml http://example.org/b.yaml" +:+ nl)
    "20-default.list" ParseFacts.record_model
  = parse_sources_data "yaml http://example.org/a.yaml" "20-default.list"
      ParseFacts.record_model.
Proof. apply parse_ignores_comments. vm_compute. reflexivity. Defined.

(** Every separator cuts the string. *)
Lemma split_app (c : ascii) (a b : string) :
  split c (a +:+ String c b) = split c a ++ split c b.
Proof.
  induction a as [|x a IH].
  - rewrite str_app_nil. simpl. by rewrite decide_True.
  - rewrite str_app_cons. simpl. rewrite IH.
    destruct (decide (x = c)); [done|].
    pose proof (split_nonempty c a). by destruct (split c a).
Qed.

(** X7: a document made of two documents, one after the other on
    separate lines, parses to the sources of the first followed by the
    sources of the second; the first error, in this order, is the error
    of the whole. *)
Theorem parse_sources_data_app {A}
    (model : string → string → list string → option string → result A)
    (a b origin : string) :
  parse_sources_data (a +:+ nl +:+ b) origin model
  = match parse_sources_data a origin model with
    | Ok xs => bind (parse_sources_data b origin model) (λ ys, Ok (xs ++ ys))
    | Raise e => Raise e
    end.
Proof.
  unfold parse_sources_data, nl.
  rewrite (str_app_cons "010" ""), str_app_nil, split_app.
  apply ParseFacts.parse_lines_app.
Qed.

(** X4: [create_default] keeps, in the order of the index, the cached
    sources whose tags, the empty string apart, are all among the
    matcher's, and drops the others; it fails as the load of the cache
    fails. *)
Theorem create_default_retains `{Env} (matcher : DataSourceMatcher)
    (sources_cache_dir : option string) (fs0 : Fs.t) :
  match load_cached_sources_list sources_cache_dir fs0 with
  | Ok cached =>
      ∃ loader,
        create_default matcher sources_cache_dir fs0 = Ok loader
        ∧ sources loader `sublist_of` cached
        ∧ ∀ c, c ∈ sources loader
               ↔ c ∈ cached ∧ ∀ t, t ∈ tags c → t ≠ "" → t ∈ matcher_tags matcher
  | Raise e => create_default matcher sources_cache_dir fs0 = Raise e
  end.
Proof.
  unfold create_default.
  destruct (load_cached_sources_list sources_cache_dir fs0) as [cached|e]; [|done].
  simpl. eexists. split; [done|]. simpl. split; [apply sublist_filter|].
  intros c. rewrite list_elem_of_filter, MatcherFacts.matches_iff. tauto.
Qed.

(** X5: [load_view] does nothing to a database that has the view; for
    another name it registers the data of the first source with that URL,
    under the name and with the name as origin, and raises
    [ResourceNotFound] when no source has that URL. *)
Theorem load_view_cases `{RosdepDatabase DB} (self : SourcesListLoader)
    (view_name : string) (rosdep_db : DB) :
  (is_loaded view_name rosdep_db = true →
   load_view self view_name rosdep_db = Ok rosdep_db)
  ∧ (is_loaded view_name rosdep_db = false →
     view_name ∉ get_loadable_views self →
     load_view self view_name rosdep_db = Raise (ResourceNotFound view_name))
  ∧ (is_loaded view_name rosdep_db = false →
     ∀ before c after,
       sources self = before ++ c :: after →
       url c = view_name →
       (∀ b, b ∈ before → url b ≠ view_name) →
       load_view self view_name rosdep_db
       = Ok (set_view_data view_name (rosdep_data c)
               (get_view_dependencies self view_name) view_name rosdep_db)).
Proof.
  unfold load_view, get_source. split; [by intros ->|]. split.
  - intros -> Hout.
    rewrite (proj2 (LoaderFacts.filter_url_nil (sources self) (λ x, url x = view_name)));
      [done|].
    intros c Hin Hurl. apply Hout. unfold get_loadable_views.
    apply list_elem_of_In, in_map_iff. exists c. split; [done|].
    by apply list_elem_of_In.
  - intros -> before c after -> Hurl Hbefore.
    rewrite filter_app, filter_cons, decide_True by done.
    rewrite (proj2 (LoaderFacts.filter_url_nil before (λ x, url x = view_name)));
      [done|].
    intros b Hb. by apply Hbefore.
Qed.

Section update_extras.
Context `{Env} {Obs : Type}.
Variable success_handler : option (DataSource → Obs → Obs).
Variable error_handler : option (DataSource → exn → Obs → Obs).

(** X8: what [update_sources_list] returns are sources of the parsed
    list, each once at most and in the order of the list, each with the
    path of its cache entry, and a file is at each of these paths when it
    returns. *)
Theorem update_returns_cached (sources_list_dir sources_cache_dir : option string)
    (st st' : state Obs) (retval : list (DataSource * string)) :
  update_sources_list success_handler error_handler sources_list_dir sources_cache_dir st
  = (Ok retval, st') →
  ∃ sources,
    parse_sources_list sources_list_dir (fs st) = Ok sources
    ∧ retval `sublist_of`
        map (λ s, (s, cache_path (default get_sources_cache_dir sources_cache_dir) s))
          sources
    ∧ ∀ source p, (source, p) ∈ retval → is_Some (Fs.files (fs st') !! p).
Proof.
  unfold update_sources_list.
  destruct (parse_sources_list sources_list_dir (fs st)) as [sources|] eqn:Hparse;
    [|done].
  intros (_ & _ & Hsub & _ & Hwritten & _)%update_from_spec.
  by exists sources.
Qed.

(** What [parse_sources_list] raises: an [InvalidData] that names a file
    of the sources list, or the [OSError] of listing the directory. *)
Lemma parse_sources_list_raises (sources_list_dir : option string) (fs0 : Fs.t)
    (e : exn) :
  parse_sources_list sources_list_dir fs0 = Raise e →
  (∃ msg origin, e = InvalidData msg (Some origin))
  ∨ (Fs.listdir (default get_sources_list_dir sources_list_dir) fs0 = Raise e
     ∧ ∃ msg, e = OSError msg).
Proof.
  unfold parse_sources_list. destruct (negb _); [done|].
  destruct (Fs.listdir _ fs0) as [entries|e1] eqn:Hlist; cbn [bind].
  - generalize (merge_sort String.le (filter (λ f, endswith ".list" f = true) entries)).
    intros names Hraise. left. revert Hraise.
    induction names as [|f names IH]; simpl; [done|].
    unfold parse_sources_file at 1. unfold Fs.read.
    destruct (Fs.files fs0 !! _) as [data|]; [|intros [= <-]; eauto].
    unfold parse_sources_data.
    destruct (parse_lines _ _ _) as [here|e1] eqn:Hhere.
    + destruct (parse_files _ names fs0) as [there|e2]; [done|].
      simpl. intros [= <-]. by apply IH.
    + simpl. intros [= <-].
      destruct (ParseFacts.parse_lines_raises _ _ _ _ ParseFacts.DataSource_init_raises Hhere)
        as [msg ->].
      eauto.
  - intros [= <-]. right. split; [done|].
    unfold Fs.listdir in Hlist. destruct (bool_decide _); [done|].
    destruct (bool_decide _); injection Hlist as <-; eauto.
Qed.

(** X9: when the sources list cannot be parsed, [update_sources_list]
    raises what [parse_sources_list] raised, and by then nothing has been
    asked of the network, reported to a handler or written.  What is
    raised is an [InvalidData] that names a file of the sources list, or
    the [OSError] of listing a sources list directory that cannot be
    listed. *)
Theorem update_failure (sources_list_dir sources_cache_dir : option string)
    (st : state Obs) (e : exn) :
  parse_sources_list sources_list_dir (fs st) = Raise e →
  update_sources_list success_handler error_handler sources_list_dir sources_cache_dir st
  = (Raise e, st)
  ∧ ((∃ msg origin, e = InvalidData msg (Some origin))
     ∨ (Fs.listdir (default get_sources_list_dir sources_list_dir) (fs st) = Raise e
        ∧ ∃ msg, e = OSError msg)).
Proof.
  intros Hparse. split; [|by eapply parse_sources_list_raises].
  unfold update_sources_list. by rewrite Hparse.
Qed.

(** X22: a source whose fetch ends in [DownloadFailure] is reported to
    the error handler with that failure, nothing is written for it, and
    the loop goes on with the next source.  When the update returns, it
    has asked for every source, and every source that was fetched is
    returned with its cache path; its cache entry holds the data that
    were fetched for it, unless a later source has the same cache path
    or the path is that of the index. *)
Theorem download_failure_is_reported (on_error : DataSource → exn → Obs → Obs)
    (sources_cache_dir : string) (before after : list DataSource)
    (source : DataSource) (msg : string)
    (st st1 : state Obs) (r1 : list (DataSource * string)) :
  error_handler = Some on_error →
  update_loop success_handler error_handler sources_cache_dir before [] st = (Ok r1, st1) →
  fetch_fails (requests st1) source msg →
  let sources := before ++ source :: after in
  update_loop success_handler error_handler sources_cache_dir sources [] st
  = update_loop success_handler error_handler sources_cache_dir after r1
      (mk_state (fs st1) (requests st1 ++ [ds_url source])
         (on_error source (DownloadFailure msg) (console st1)))
  ∧ ∀ retval st',
      update_from success_handler error_handler sources_cache_dir sources st
      = (Ok retval, st') →
      requests st' = requests st ++ map ds_url sources
      ∧ ∀ i other data,
          sources !! i = Some other →
          fetch (requests st ++ map ds_url (take i sources)) other = Ok data →
          (other, cache_path sources_cache_dir other) ∈ retval
          ∧ (cache_path sources_cache_dir other ≠ OsPath.join sources_cache_dir "index" →
             (∀ j later, i < j → sources !! j = Some later →
                cache_path sources_cache_dir later ≠ cache_path sources_cache_dir other) →
             Fs.read (cache_path sources_cache_dir other) (fs st')
             = Ok (yaml_safe_dump data)).
Proof.
  intros Hhandler Hbefore Hfail sources. split.
  - unfold sources. rewrite update_loop_app, Hbefore.
    rewrite (update_loop_failure _ _ _ _ _ _ _ _ Hfail).
    unfold call_error. by rewrite Hhandler.
  - intros retval st' (Hreq & _ & _ & Hcached & _)%update_from_spec.
    split; [done|]. intros i other data Hi Hok.
    destruct (Hcached i other data Hi Hok) as [Hin Hdata]. split; [done|].
    intros Hne Hlater. unfold Fs.read. by rewrite (Hdata Hne Hlater).
Qed.

(** X23: a source whose fetch raises what is no [DownloadFailure] ends
    the update: the exception leaves [update_sources_list] after the
    request for that source, no handler is called for it, the sources
    after it are not asked for, and the index is not written. *)
Theorem uncaught_error_aborts_update (sources_list_dir sources_cache_dir : option string)
    (before after : list DataSource) (source : DataSource) (e : exn)
    (st st1 : state Obs) (r1 : list (DataSource * string)) :
  parse_sources_list sources_list_dir (fs st) = Ok (before ++ source :: after) →
  update_loop success_handler error_handler
    (default get_sources_cache_dir sources_cache_dir) before [] st = (Ok r1, st1) →
  fetch_escapes (requests st1) source e →
  update_sources_list success_handler error_handler sources_list_dir sources_cache_dir st
  = (Raise e, mk_state (fs st1) (requests st1 ++ [ds_url source]) (console st1)).
Proof.
  intros Hparse Hbefore Hescape. unfold update_sources_list, update_from.
  rewrite Hparse, update_loop_app, Hbefore.
  by rewrite (update_loop_escape _ _ _ _ _ _ _ _ Hescape).
Qed.


End update_extras.

Lemma update_returns_cached_witness :
  is_Some (Fs.files (fs RoundTripFacts.sample_updated)
             !! "/var/cache/rosdep/sha1-lmay.a/gro.elpmaxe//:ptth").
Proof.
  destruct (@update_returns_cached LoaderFacts.sample_env (list string) None
              (Some sample_on_error) (Some sample_list_dir) (Some "/var/cache/rosdep")
              sample_state RoundTripFacts.sample_updated _ RoundTripFacts.sample_update)
    as (sources & _ & _ & Hfiles).
  apply (Hfiles (sample_entry "http://example.org/a.yaml" [])). by left.
Defined.

(** A sources list with a line that has a type and nothing else. *)
Definition broken_fs : Fs.t :=
  Fs.mk {[ sample_list_file := "yaml http://example.org/a.yaml" +:+ nl +:+ "gbpdistro" ]}
        {[ sample_list_dir ]}.

(** A system on which the sources list directory is a file. *)
Definition misplaced_fs : Fs.t :=
  Fs.mk {[ sample_list_dir := "yaml http://example.org/a.yaml" +:+ nl ]} ∅.

Lemma update_failure_witness :
  @update_sources_list LoaderFacts.sample_env (list string) None None
    (Some sample_list_dir) (Some "/var/cache/rosdep") (mk_state broken_fs [] [])
  = (Raise (InvalidData ("invalid line:" +:+ nl +:+ "gbpdistro") (Some sample_list_file)),
     mk_state broken_fs [] [])
  ∧ @update_sources_list LoaderFacts.sample_env (list string) None None
      (Some sample_list_dir) (Some "/var/cache/rosdep") (mk_state misplaced_fs [] [])
    = (Raise (OSError (Fs.enotdir sample_list_dir)), mk_state misplaced_fs [] []).
Proof.
  split.
  - apply (@update_failure LoaderFacts.sample_env (list string) None None
             (Some sample_list_dir) (Some "/var/cache/rosdep")
             (mk_state broken_fs [] [])).
    vm_compute. reflexivity.
  - apply (@update_failure LoaderFacts.sample_env (list string) None None
             (Some sample_list_dir) (Some "/var/cache/rosdep")
             (mk_state misplaced_fs [] [])).
    vm_compute. reflexivity.
Defined.

(** The sample update up to its second source. *)
Definition sample_after_first : state (list string) :=
  (@update_loop LoaderFacts.sample_env _ None (Some sample_on_error) "/var/cache/rosdep"
     [sample_entry "http://example.org/a.yaml" []] [] sample_state).2.

Example sample_first :
  @update_loop LoaderFacts.sample_env _ None (Some sample_on_error) "/var/cache/rosdep"
    [sample_entry "http://example.org/a.yaml" []] [] sample_state
  = (Ok [(sample_entry "http://example.org/a.yaml" [],
          "/var/cache/rosdep/sha1-lmay.a/gro.elpmaxe//:ptth")], sample_after_first).
Proof. vm_compute. reflexivity. Qed.

Lemma download_failure_is_reported_witness :
  @update_loop LoaderFacts.sample_env _ None (Some sample_on_error) "/var/cache/rosdep"
    sample_sources [] sample_state
  = @update_loop LoaderFacts.sample_env _ None (Some sample_on_error) "/var/cache/rosdep"
      [sample_entry "http://example.org/c.yaml" []]
      [(sample_entry "http://example.org/a.yaml" [],
        "/var/cache/rosdep/sha1-lmay.a/gro.elpmaxe//:ptth")]
      (mk_state (fs sample_after_first)
         (requests sample_after_first ++ ["http://example.org/b.yaml"])
         (sample_on_error (sample_entry "http://example.org/b.yaml" ["ubuntu"])
            (DownloadFailure "<urlopen error timed out>") (console sample_after_first))).
Proof.
  apply (@download_failure_is_reported LoaderFacts.sample_env (list string) None
           (Some sample_on_error) sample_on_error "/var/cache/rosdep"
           [sample_entry "http://example.org/a.yaml" []]
           [sample_entry "http://example.org/c.yaml" []]
           (sample_entry "http://example.org/b.yaml" ["ubuntu"])
           "<urlopen error timed out>" sample_state sample_after_first
           [(sample_entry "http://example.org/a.yaml" [],
             "/var/cache/rosdep/sha1-lmay.a/gro.elpmaxe//:ptth")]
           eq_refl sample_first).
  by apply network_error.
Defined.

Example stalling_first :
  @update_loop stalling_env _ None (Some sample_on_error) "/var/cache/rosdep"
    [sample_entry "http://example.org/a.yaml" []] [] sample_state
  = (Ok [(sample_entry "http://example.org/a.yaml" [],
          "/var/cache/rosdep/sha1-lmay.a/gro.elpmaxe//:ptth")], sample_after_first).
Proof. vm_compute. reflexivity. Qed.

Lemma uncaught_error_aborts_update_witness :
  @update_sources_list stalling_env _ None (Some sample_on_error)
    (Some sample_list_dir) (Some "/var/cache/rosdep") sample_state
  = (Raise (SocketError "timed out"),
     mk_state (fs sample_after_first)
       (requests sample_after_first ++ ["http://example.org/b.yaml"])
       (console sample_after_first)).
Proof.
  apply (@uncaught_error_aborts_update stalling_env (list string) None
           (Some sample_on_error) (Some sample_list_dir) (Some "/var/cache/rosdep")
           [sample_entry "http://example.org/a.yaml" []]
           [sample_entry "http://example.org/c.yaml" []]
           (sample_entry "http://example.org/b.yaml" ["ubuntu"])
           (SocketError "timed out") sample_state sample_after_first
           [(sample_entry "http://example.org/a.yaml" [],
             "/var/cache/rosdep/sha1-lmay.a/gro.elpmaxe//:ptth")]).
  - vm_compute. reflexivity.
  - exact stalling_first.
  - by apply socket_failure.
Defined.


(** X11: a cache entry that [write_cache_file] wrote is what the loader
    of cached sources reads for the same URL, when the YAML library
    reads what it writes; and a URL without a cache entry loads as a
    source without data, which is no error.  The origin of the loaded
    source is the path of the entry, not the origin that was passed. *)
Theorem cache_entry_round_trip `{Env} (sources_cache_dir u type_ : string)
    (tg : list string) (o : option string) (data : yaml) (fs0 : Fs.t)
    (ds : DataSource) :
  DataSource_init type_ u tg
    (Some (OsPath.join sources_cache_dir (compute_filename_hash u))) = Ok ds →
  (yaml_safe_load (yaml_safe_dump data) = Loaded data →
   cache_data_source_loader sources_cache_dir
     (write_cache_file sources_cache_dir u data fs0).2 type_ u tg o
   = Ok {| source := ds; rosdep_data := Some data |})
  ∧ (Fs.path_exists (OsPath.join sources_cache_dir (compute_filename_hash u)) fs0 = false →
     cache_data_source_loader sources_cache_dir fs0 type_ u tg o
     = Ok {| source := ds; rosdep_data := None |}).
Proof.
  intros Hds. unfold cache_data_source_loader, CachedDataSource_init. split.
  - intros Hyaml. unfold Fs.path_exists, Fs.read.
    rewrite write_cache_file_files, lookup_insert_eq.
    rewrite (bool_decide_eq_true_2 (is_Some (Some _))) by eauto.
    rewrite orb_true_r. simpl. by rewrite Hyaml, Hds.
  - intros ->. simpl. by rewrite Hds.
Qed.

Lemma cache_entry_round_trip_witness :
  @cache_data_source_loader LoaderFacts.sample_env "/var/cache/rosdep"
    (@write_cache_file LoaderFacts.sample_env "/var/cache/rosdep"
       "http://example.org/a.yaml" (YMap []) Fs.empty).2
    "yaml" "http://example.org/a.yaml" ["ubuntu"] None
  = Ok {| source :=
            {| ds_type := Yaml; ds_url := "http://example.org/a.yaml";
               ds_tags := ["ubuntu"];
               ds_origin := Some "/var/cache/rosdep/sha1-lmay.a/gro.elpmaxe//:ptth" |};
          rosdep_data := Some (YMap []) |}.
Proof.
  apply (proj1 (@cache_entry_round_trip LoaderFacts.sample_env "/var/cache/rosdep"
                  "http://example.org/a.yaml" "yaml" ["ubuntu"] None (YMap [])
                  Fs.empty _ eq_refl)).
  reflexivity.
Defined.

End SourcesExtras.

(** ** More on the manifest resolver *)

Module ResolverExtras.
Import JFrog PyFacts ResolverFacts.

(** The artifact that [jf rt dl] is asked for, for a URL: none when the
    URL has fewer than five components. *)
Definition jf_target (u : string) : option string :=
  let s := split "/" u in
  (λ repo, repo +:+ "/" +:+ join "/" (last_n 4 s)) <$> s !! 4%nat.

Section resolver_extras.
Context `{Env}.

Lemma _sub_fetch_file_calls (u : string) (md5sum : option string) (st : state) :
  jf_calls (_sub_fetch_file u md5sum st).2 = jf_calls st ++ option_list (jf_target u).
Proof.
  unfold _sub_fetch_file, jf_target.
  destruct (split "/" u !! 4%nat) as [repo|]; simpl; [|by rewrite app_nil_r].
  destruct (negb _); [done|].
  destruct (Fs.read _ _); [|done].
  destruct md5sum as [m|]; [|done]. by destruct (_ && _).
Qed.

Lemma fetch_file_calls (u : string) (md5sum : option string) (st : state) :
  jf_calls (fetch_file u md5sum st).2 = jf_calls st ++ option_list (jf_target u).
Proof.
  unfold fetch_file. rewrite <- (_sub_fetch_file_calls u md5sum st).
  by destruct (_sub_fetch_file u md5sum st) as [[contents|[]] st1].
Qed.

(** What [_sub_fetch_file] returns has the checksum that was asked for. *)
Lemma _sub_fetch_file_verified (u : string) (md5sum : option string)
    (st st' : state) (contents : string) :
  _sub_fetch_file u md5sum st = (Ok contents, st') →
  ∀ md5, md5sum = Some md5 → truthy md5 = true → md5_hexdigest contents = md5.
Proof.
  unfold _sub_fetch_file.
  destruct (split "/" u !! 4%nat) as [repo|]; [|done].
  destruct (run_jf _ _ st) as [rc st1].
  destruct (negb _); [done|].
  destruct (Fs.read _ _) as [text|]; [|done].
  destruct md5sum as [m|].
  - destruct (truthy m) eqn:Hm; simpl.
    + case_bool_decide as Hhash; simpl; [|done].
      intros [= <- <-] md5 [= <-] _. done.
    + intros _ md5 [= <-]. congruence.
  - by intros _ md5.
Qed.

Lemma fetch_file_contents (u : string) (md5sum : option string) (st : state)
    (contents error : string) :
  (fetch_file u md5sum st).1 = Ok (contents, error) →
  (truthy error = true → contents = "")
  ∧ (truthy contents = true →
     ∀ md5, md5sum = Some md5 → truthy md5 = true → md5_hexdigest contents = md5).
Proof.
  unfold fetch_file.
  destruct (_sub_fetch_file u md5sum st) as [[text|e] st1] eqn:Hsub.
  - simpl. intros [= <- <-]. split; [done|].
    intros _. by eapply _sub_fetch_file_verified.
  - destruct e; simpl; try done. intros [= <- <-]. split; [done|done].
Qed.

Lemma fetch_file_never (u : string) (md5sum : option string) (st : state) (msg : string) :
  (fetch_file u md5sum st).1 ≠ Raise (DownloadFailed msg).
Proof.
  unfold fetch_file. by destruct (_sub_fetch_file u md5sum st) as [[text|[]] st1].
Qed.

(** X12: [fetch_file] turns [DownloadFailed] into an error text beside
    empty contents and never lets it out; contents that are not empty
    come without an error text and, when a checksum was asked for, have
    that checksum. *)
Theorem fetch_file_verified (u : string) (md5sum : option string) (st : state) :
  (∀ msg, (fetch_file u md5sum st).1 ≠ Raise (DownloadFailed msg))
  ∧ ∀ contents error,
      (fetch_file u md5sum st).1 = Ok (contents, error) →
      (truthy error = true → contents = "")
      ∧ (truthy contents = true →
         ∀ md5, md5sum = Some md5 → truthy md5 = true → md5_hexdigest contents = md5).
Proof.
  split; [intros msg; apply fetch_file_never|apply fetch_file_contents].
Qed.

(** The last step of [download_rdmanifest], on what was fetched. *)
Definition finish_download `{Env} (download_url error_prefix : string)
    (got : string * string) (st : state) : result (rdmanifest * string) * state :=
  if negb (truthy got.1)
  then (Raise (DownloadFailed (error_prefix +:+ got.2)), st)
  else (bind (load_rdmanifest got.1) (λ m, Ok (m, download_url)), st).

(** [download_rdmanifest], by what the primary location gave: the mirror
    is asked when, and only when, the primary gave no contents and a
    mirror is named. *)
Lemma download_rdmanifest_cases (u : string) (md5sum alt_url : option string)
    (st : state) :
  match fetch_file u md5sum st with
  | (Raise e, st1) => download_rdmanifest u md5sum alt_url st = (Raise e, st1)
  | (Ok got, st1) =>
      if negb (truthy got.1) && truthy_opt alt_url then
        ∃ alt, alt_url = Some alt ∧
          match fetch_file alt md5sum st1 with
          | (Raise e, st2) => download_rdmanifest u md5sum alt_url st = (Raise e, st2)
          | (Ok got2, st2) =>
              download_rdmanifest u md5sum alt_url st
              = finish_download alt
                  ("Failed to load a rdmanifest from either " +:+ u +:+ " or "
                   +:+ alt +:+ ": ") got2 st2
          end
      else
        download_rdmanifest u md5sum alt_url st
        = finish_download u ("Failed to load a rdmanifest from " +:+ u +:+ ": ") got st1
  end.
Proof.
  unfold download_rdmanifest, finish_download.
  destruct (fetch_file u md5sum st) as [[got|e] st1]; [|done].
  destruct alt_url as [alt|]; simpl; [|by rewrite andb_false_r].
  destruct (negb (truthy got.1) && truthy alt); [|done].
  exists alt. split; [done|].
  by destruct (fetch_file alt md5sum st1) as [[got2|e] st2].
Qed.

Lemma finish_download_ok (download_url error_prefix : string) (got : string * string)
    (st st' : state) (m : rdmanifest) (d : string) :
  finish_download download_url error_prefix got st = (Ok (m, d), st') →
  truthy got.1 = true ∧ load_rdmanifest got.1 = Ok m ∧ d = download_url ∧ st' = st.
Proof.
  unfold finish_download. destruct (truthy got.1); simpl; [|done].
  destruct (load_rdmanifest got.1); simpl; [|done]. by intros [= <- <- <-].
Qed.

(** X13: the manifest that [download_rdmanifest] returns is the reading
    of contents, not empty, that were fetched from the location it
    reports, with the checksum that was asked for; this location is the
    primary URL, or else the mirror, fetched after the primary had given
    no contents. *)
Theorem download_rdmanifest_verified (u : string) (md5sum alt_url : option string)
    (st st' : state) (m : rdmanifest) (d : string) :
  download_rdmanifest u md5sum alt_url st = (Ok (m, d), st') →
  ∃ contents error before,
    fetch_file d md5sum before = (Ok (contents, error), st')
    ∧ truthy contents = true
    ∧ load_rdmanifest contents = Ok m
    ∧ (∀ md5, md5sum = Some md5 → truthy md5 = true → md5_hexdigest contents = md5)
    ∧ (before = st ∧ d = u
       ∨ alt_url = Some d
         ∧ ∃ error0, fetch_file u md5sum st = (Ok ("", error0), before)).
Proof.
  pose proof (download_rdmanifest_cases u md5sum alt_url st) as Hcases.
  destruct (fetch_file u md5sum st) as [[got|e] st1] eqn:Hprimary;
    [|by rewrite Hcases].
  destruct (negb (truthy got.1) && truthy_opt alt_url) eqn:Hfallback.
  - destruct Hcases as (alt & -> & Hcases).
    apply andb_true_iff in Hfallback as [Hempty%negb_true_iff%truthy_false _].
    destruct (fetch_file alt md5sum st1) as [[got2|e] st2] eqn:Hmirror;
      [|by rewrite Hcases].
    rewrite Hcases. intros (Hcontents & Hload & -> & ->)%finish_download_ok.
    destruct got2 as [contents error]. exists contents, error, st1.
    split; [done|]. split; [done|]. split; [done|]. split.
    + apply (fetch_file_contents alt md5sum st1 contents error); [|done].
      by rewrite Hmirror.
    + right. split; [done|]. destruct got as [c0 e0]. simpl in Hempty.
      subst c0. by exists e0.
  - rewrite Hcases. intros (Hcontents & Hload & -> & ->)%finish_download_ok.
    destruct got as [contents error]. exists contents, error, st.
    split; [done|]. split; [done|]. split; [done|]. split; [|by left].
    apply (fetch_file_contents u md5sum st contents error); [|done].
    by rewrite Hprimary.
Qed.

(** X14: when [download_rdmanifest] fails for want of contents, the
    error names the primary URL when only it was tried, and the primary
    and the mirror when both were. *)
Theorem download_rdmanifest_failure_names (u : string) (md5sum alt_url : option string)
    (st st' : state) (msg : string) :
  download_rdmanifest u md5sum alt_url st = (Raise (DownloadFailed msg), st') →
  ∃ detail,
    (truthy_opt alt_url = false
     ∧ msg = "Failed to load a rdmanifest from " +:+ u +:+ ": " +:+ detail
     ∧ jf_calls st' = jf_calls st ++ option_list (jf_target u))
    ∨ ∃ alt, alt_url = Some alt
        ∧ msg = "Failed to load a rdmanifest from either " +:+ u +:+ " or "
                +:+ alt +:+ ": " +:+ detail
        ∧ jf_calls st' = jf_calls st ++ option_list (jf_target u)
                         ++ option_list (jf_target alt).
Proof.
  pose proof (download_rdmanifest_cases u md5sum alt_url st) as Hcases.
  pose proof (fetch_file_calls u md5sum st) as Hcalls1.
  pose proof (fetch_file_never u md5sum st) as Hnever1.
  destruct (fetch_file u md5sum st) as [[got|e] st1] eqn:Hprimary.
  2:{ rewrite Hcases. intros [= -> _]. by destruct (Hnever1 msg). }
  simpl in Hcalls1.
  assert (Hfinish : ∀ d prefix (got0 : string * string) (st0 : state),
    finish_download d prefix got0 st0 = (Raise (DownloadFailed msg), st') →
    truthy got0.1 = false ∧ msg = prefix +:+ got0.2 ∧ st' = st0).
  { intros d prefix got0 st0. unfold finish_download.
    destruct (truthy got0.1); simpl; [|by intros [= <- <-]].
    unfold load_rdmanifest. by destruct (yaml_safe_load got0.1). }
  destruct (negb (truthy got.1) && truthy_opt alt_url) eqn:Hfallback.
  - destruct Hcases as (alt & -> & Hcases).
    pose proof (fetch_file_calls alt md5sum st1) as Hcalls2.
    pose proof (fetch_file_never alt md5sum st1) as Hnever2.
    destruct (fetch_file alt md5sum st1) as [[got2|e] st2] eqn:Hmirror.
    2:{ rewrite Hcases. intros [= -> _]. by destruct (Hnever2 msg). }
    rewrite Hcases. intros (_ & -> & ->)%Hfinish. simpl in Hcalls2.
    exists got2.2. right. exists alt. split; [done|].
    split; [by rewrite !str_app_assoc|]. by rewrite Hcalls2, Hcalls1, app_assoc.
  - rewrite Hcases. intros (Hempty & -> & ->)%Hfinish.
    exists got.2. left. rewrite Hempty in Hfallback. simpl in Hfallback.
    split; [done|]. split; [by rewrite !str_app_assoc|done].
Qed.

(** X15: a call to [resolve] that fails leaves the cache and the heap as
    they were, so that the next call tries again; the failure is never a
    [DownloadFailed] or an [InvalidRdmanifest], which come out as
    [InvalidData]; and arguments without ['uri'] fail before anything is
    asked of the server. *)
Theorem resolve_failure (args : rosdep_args) (st st' : state) (e : exn) :
  resolve args st = (Raise e, st') →
  rdmanifest_cache st' = rdmanifest_cache st
  ∧ heap st' = heap st
  ∧ (∀ msg, e ≠ DownloadFailed msg ∧ e ≠ InvalidRdmanifest msg)
  ∧ (a_uri args = None →
     e = InvalidData "'uri' key required for source rosdeps" None ∧ st' = st).
Proof.
  unfold resolve. destruct (a_uri args) as [u|]; [|by intros [= <- <-]].
  simpl. destruct (rdmanifest_cache st !! u); [done|].
  destruct (cached (a_alternate_uri args) st); [done|].
  destruct (download_rdmanifest u (a_md5sum args) (a_alternate_uri args) st)
    as [got st1] eqn:Hdl.
  apply download_rdmanifest_spec in Hdl as [[Hcache Hheap] _].
  destruct got as [[m d]|e1].
  - destruct (from_manifest m d) as [resolved|e1] eqn:Hfrom; [done|].
    unfold from_manifest in Hfrom. destruct (m_uri m); [done|].
    injection Hfrom as <-. by intros [= <- <-].
  - destruct e1; intros [= <- <-]; done.
Qed.

(** X16: the only list of the caller that [get_depends] changes is the
    one under ['depends'] of the arguments, and it changes it only when
    the manifest resolves: every other list, and every list when the call
    fails, is as it was. *)
Theorem get_depends_frame (args : rosdep_args) (st st' : state)
    (outcome : result positive) (l : positive) :
  get_depends args st = (outcome, st') →
  l ∈ dom (heap st) →
  a_depends args ≠ Some l ∨ is_ok outcome = false →
  heap st' !! l = heap st !! l.
Proof.
  unfold get_depends. intros Hcall Hl Hother. revert Hcall.
  destruct (a_depends args) as [deps|] eqn:Hdeps.
  - destruct (resolve args st) as [[rs|e] st1] eqn:Hresolve;
      apply resolve_spec in Hresolve as (Hheap & _ & _).
    + intros [= <- <-]. simpl. destruct Hother as [Hne|]; [|done].
      rewrite extend_all_other by congruence. by rewrite Hheap.
    + intros [= <- <-]. by rewrite Hheap.
  - set (fresh_list := fresh (dom (heap st))).
    assert (Hfresh : l ≠ fresh_list).
    { intros ->. by apply (is_fresh (dom (heap st))). }
    destruct (resolve args _) as [[rs|e] st1] eqn:Hresolve;
      apply resolve_spec in Hresolve as (Hheap & _ & _); simpl in Hheap.
    + intros [= <- <-]. simpl. rewrite extend_all_other by done.
      by rewrite Hheap, lookup_insert_ne.
    + intros [= <- <-]. by rewrite Hheap, lookup_insert_ne.
Qed.

(** X17: without ['depends'] in the arguments, [get_depends] returns a
    list of its own, one that no caller holds, with the dependencies of
    the resolutions that the cache then has for the manifest. *)
Theorem get_depends_fresh_list (args : rosdep_args) (st st' : state)
    (deps : positive) :
  a_depends args = None →
  get_depends args st = (Ok deps, st') →
  (deps ∉ dom (heap st))
  ∧ ∃ rs key,
      (a_uri args = Some key ∨ a_alternate_uri args = Some key)
      ∧ rdmanifest_cache st' !! key = Some rs
      ∧ heap st' !! deps = Some (concat (map dependencies rs)).
Proof.
  unfold get_depends. intros ->.
  set (fresh_list := fresh (dom (heap st))).
  destruct (resolve args _) as [[rs|e] st1] eqn:Hresolve; [|done].
  intros [= <- <-]. split; [apply is_fresh|].
  apply resolve_spec in Hresolve as (Hheap & _ & Hkey).
  destruct (Hkey rs eq_refl) as (key & Hnamed & Hcached).
  exists rs, key. split; [done|]. split; [done|]. simpl in *.
  by rewrite extend_all_lookup, Hheap, lookup_insert_eq.
Qed.

End resolver_extras.

Definition mirrored_args : rosdep_args :=
  {| a_uri := Some "https://artifactory.example.org/artifactory/ros/rdmanifests/foo/1.0/gone";
     a_alternate_uri :=
       Some "https://mirror.example.org/artifactory/mirror/rdmanifests/foo/1.0/foo.rdmanifest";
     a_md5sum := None; a_depends := None |}.

Lemma download_rdmanifest_verified_witness :
  ∃ contents,
    truthy contents = true
    ∧ @load_rdmanifest sample_env contents = Ok sample_manifest.
Proof.
  destruct (@download_rdmanifest_verified sample_env
              "https://artifactory.example.org/artifactory/ros/rdmanifests/foo/1.0/gone"
              None
              (Some "https://mirror.example.org/artifactory/mirror/rdmanifests/foo/1.0/foo.rdmanifest")
              sample_state
              (@download_rdmanifest sample_env
                 "https://artifactory.example.org/artifactory/ros/rdmanifests/foo/1.0/gone"
                 None
                 (Some "https://mirror.example.org/artifactory/mirror/rdmanifests/foo/1.0/foo.rdmanifest")
                 sample_state).2
              sample_manifest
              "https://mirror.example.org/artifactory/mirror/rdmanifests/foo/1.0/foo.rdmanifest")
    as (contents & error & before & _ & Hcontents & Hload & _).
  - vm_compute. reflexivity.
  - by exists contents.
Defined.

Lemma download_rdmanifest_failure_names_witness :
  (@download_rdmanifest sample_env "https://example.org/a/b/c/d/gone" None
     (Some "https://example.org/a/m/c/d/gone") sample_state).1
  = Raise (DownloadFailed
      "Failed to load a rdmanifest from either https://example.org/a/b/c/d/gone or https://example.org/a/m/c/d/gone: jfrog download returned 1").
Proof.
  destruct (@download_rdmanifest sample_env "https://example.org/a/b/c/d/gone" None
     (Some "https://example.org/a/m/c/d/gone") sample_state) as [outcome st'] eqn:Hdl.
  assert (Hfails : outcome = Raise (DownloadFailed
      "Failed to load a rdmanifest from either https://example.org/a/b/c/d/gone or https://example.org/a/m/c/d/gone: jfrog download returned 1")).
  { vm_compute in Hdl. by injection Hdl as <- _. }
  subst outcome.
  destruct (@download_rdmanifest_failure_names sample_env _ _ _ _ _ _ Hdl)
    as (detail & [(Halt & _)|(alt & _ & Hmsg & _)]); [done|].
  simpl. by rewrite Hmsg.
Defined.

Lemma resolve_failure_witness :
  rdmanifest_cache (@resolve sample_env broken_args sample_state).2 = ∅.
Proof.
  destruct (@resolve sample_env broken_args sample_state) as [outcome st'] eqn:Hcall.
  assert (Hfails : ∃ e, outcome = Raise e).
  { vm_compute in Hcall. injection Hcall as <- _. eauto. }
  destruct Hfails as [e ->].
  destruct (@resolve_failure sample_env _ _ _ _ Hcall) as (Hcache & _).
  simpl. rewrite Hcache. reflexivity.
Defined.

Lemma get_depends_frame_witness :
  heap (@get_depends sample_env mirrored_args sample_state).2 !! 1%positive
  = Some ["qux"].
Proof.
  destruct (@get_depends sample_env mirrored_args sample_state) as [outcome st'] eqn:Hcall.
  cbn [snd].
  rewrite (@get_depends_frame sample_env _ _ _ _ 1%positive Hcall); [done|by_compute|].
  by left.
Defined.

Lemma get_depends_fresh_list_witness :
  ∃ deps st',
    @get_depends sample_env mirrored_args sample_state = (Ok deps, st')
    ∧ (deps ∉ dom (heap sample_state))
    ∧ heap st' !! deps = Some ["bar"; "baz"].
Proof.
  destruct (@get_depends sample_env mirrored_args sample_state) as [[deps|e] st'] eqn:Hcall;
    [|vm_compute in Hcall; discriminate Hcall].
  exists deps, st'. split; [done|].
  destruct (@get_depends_fresh_list sample_env mirrored_args sample_state st' deps
              eq_refl Hcall)
    as (Hfresh & rs & key & _ & _ & Hlist).
  split; [done|].
  assert (Hheap : heap st' !! deps = Some ["bar"; "baz"]);
    [|exact Hheap].
  vm_compute in Hcall. injection Hcall as <- <-. vm_compute. reflexivity.
Defined.

End ResolverExtras.



(** ** More on the install pipeline *)

Module InstallExtras.
Import JFrog PyFacts ResolverFacts InstallFacts ResolverExtras.

Section install_extras.
Context `{Env}.

Lemma jfrog_urlretrieve_calls (u : string) (st : state) :
  jf_calls (jfrog_urlretrieve u st).2 = jf_calls st ++ option_list (jf_target u).
Proof.
  unfold jfrog_urlretrieve, jf_target.
  destruct (split "/" u !! 4%nat) as [repo|]; simpl; [|by rewrite app_nil_r].
  by case_bool_decide.
Qed.

Lemma try_finally_rmtree_calls (resolved : JFrogInstall) (filename tempdir : string)
    (st : state) :
  jf_calls (try_finally_rmtree resolved filename tempdir st).2 = jf_calls st.
Proof.
  unfold try_finally_rmtree.
  destruct (extract_and_run _ _ _ _) as [outcome fs1].
  by destruct (Fs.rmtree tempdir fs1) as [[[]|e] fs2].
Qed.

(** X18: when [install_source] fails because the tarball cannot be read
    as an archive, or because the install script fails, the working
    directory is removed all the same. *)
Theorem install_source_failure_cleans (resolved : JFrogInstall) (st st' : state)
    (e : exn) :
  install_source resolved st = (Raise e, st') →
  e = InstallFailed JFROG_INSTALLER "installation script returned with error code"
  ∨ (∃ msg, e = ReadError msg) →
  tempdir_of resolved ∉ Fs.dirs (fs st').
Proof.
  intros Hcall Hexit. eapply install_source_cleans_after_try; [done|].
  destruct Hexit as [->|[msg ->]]; eauto.
Qed.

(** X19: when [install_source] returns normally, nothing is left of the
    working directory: neither the directory, nor a file or directory
    below it. *)
Theorem install_source_success_leaves_nothing (resolved : JFrogInstall)
    (st st' : state) (p : string) :
  install_source resolved st = (Ok (), st') →
  Fs.under (tempdir_of resolved) p = true →
  Fs.path_exists p (fs st') = false.
Proof.
  unfold install_source, tempdir_of.
  destruct (split "/" (tarball resolved) !! 4%nat) as [repo|]; [|done].
  destruct (jfrog_urlretrieve (tarball resolved) st) as [f st1].
  destruct (negb _); [done|].
  destruct (check_md5sum resolved _ st1) as [[filename|e] st2]; [|done].
  unfold try_finally_rmtree.
  destruct (extract_and_run _ _ _ _) as [outcome fs1].
  unfold Fs.rmtree. case_bool_decide as Hdir; simpl; [|done].
  intros [= -> <-] Hunder. unfold Fs.path_exists. simpl.
  apply orb_false_iff. split; apply bool_decide_eq_false.
  - intros [Hp _]%elem_of_filter. congruence.
  - intros [contents Hp]. apply map_lookup_filter_Some in Hp as [_ Hp].
    simpl in Hp. congruence.
Qed.

Lemma str_app_nonempty (a b : string) (x : ascii) : a +:+ String x b ≠ "".
Proof. by destruct a. Qed.

Lemma join_nonempty (sep x y : string) (l : list string) :
  sep ≠ "" → join sep (x :: y :: l) ≠ "".
Proof.
  intros Hsep. rewrite StripFacts.join_cons.
  destruct sep as [|c sep]; [done|]. rewrite str_app_cons.
  apply str_app_nonempty.
Qed.

(** X20: when the download of the primary tarball fails, [install_source]
    stops at its assertion: it raises [AssertionError], having asked the
    server once, and neither verifies, nor asks the mirror, nor removes
    anything. *)
Theorem install_source_download_failed (resolved : JFrogInstall) (st : state)
    (repo : string) :
  let filename := join "/" (last_n 4 (split "/" (tarball resolved))) in
  split "/" (tarball resolved) !! 4%nat = Some repo →
  returncode (jf_rt_dl (jf_calls st) (repo +:+ "/" +:+ filename)) ≠ 0%Z →
  install_source resolved st
  = (Raise AssertionError, (run_jf (repo +:+ "/" +:+ filename) filename st).2).
Proof.
  intros filename Hrepo Hrc. unfold install_source, jfrog_urlretrieve.
  rewrite Hrepo. fold filename. simpl.
  rewrite (bool_decide_eq_false_2 (returncode _ = 0%Z)) by done. simpl.
  rewrite bool_decide_eq_false_2; [done|].
  intros Hempty. symmetry in Hempty. revert Hempty. unfold filename, last_n.
  apply lookup_lt_Some in Hrepo.
  destruct (drop (length (split "/" (tarball resolved)) - 4)
              (split "/" (tarball resolved))) as [|a [|b l]] eqn:Hdrop.
  - apply (f_equal length) in Hdrop. rewrite length_drop in Hdrop. simpl in *. lia.
  - apply (f_equal length) in Hdrop. rewrite length_drop in Hdrop. simpl in *. lia.
  - by apply join_nonempty.
Qed.

(** X21: [install_source] asks the server for the primary tarball, and
    for nothing else unless a checksum is declared, the primary tarball
    was fetched and has another checksum, and an alternate is named: then
    it asks for the alternate as well, and that is all. *)
Theorem install_source_calls (resolved : JFrogInstall) (st st' : state)
    (outcome : result unit) (repo : string) :
  let filename := join "/" (last_n 4 (split "/" (tarball resolved))) in
  split "/" (tarball resolved) !! 4%nat = Some repo →
  install_source resolved st = (outcome, st') →
  jf_calls st' = jf_calls st ++ [repo +:+ "/" +:+ filename]
  ∨ ∃ md5sum alternate hash1,
      tarball_md5sum resolved = Some md5sum
      ∧ alternate_tarball resolved = Some alternate
      ∧ get_file_hash filename (fs (jfrog_urlretrieve (tarball resolved) st).2) = Ok hash1
      ∧ hash1 ≠ md5sum
      ∧ jf_calls st'
        = jf_calls st ++ [repo +:+ "/" +:+ filename] ++ option_list (jf_target alternate).
Proof.
  intros filename Hrepo. unfold install_source. rewrite Hrepo. fold filename.
  pose proof (jfrog_urlretrieve_calls (tarball resolved) st) as Hcalls.
  unfold jf_target in Hcalls. rewrite Hrepo in Hcalls. simpl in Hcalls.
  fold filename in Hcalls.
  destruct (jfrog_urlretrieve (tarball resolved) st) as [f st1]. simpl in *.
  destruct (negb _); [intros [= <- <-]; by left|].
  unfold check_md5sum.
  assert (Hproceed : ∀ name st2,
    try_finally_rmtree resolved name (OsPath.dirname filename) st2 = (outcome, st') →
    jf_calls st' = jf_calls st2).
  { intros name st2 Htry.
    replace st' with (try_finally_rmtree resolved name (OsPath.dirname filename) st2).2
      by by rewrite Htry.
    apply try_finally_rmtree_calls. }
  destruct (tarball_md5sum resolved) as [md5sum|];
    [|intros Htry%Hproceed; left; congruence].
  destruct (truthy md5sum); [|intros Htry%Hproceed; left; congruence].
  destruct (get_file_hash filename (fs st1)) as [hash1|e] eqn:Hhash1;
    [|intros [= <- <-]; by left].
  case_bool_decide as Hsame; simpl; [intros Htry%Hproceed; left; congruence|].
  destruct (alternate_tarball resolved) as [alternate|];
    [|intros [= <- <-]; by left].
  destruct (truthy alternate); [|intros [= <- <-]; by left].
  pose proof (jfrog_urlretrieve_calls alternate st1) as Hcalls2.
  destruct (jfrog_urlretrieve alternate st1) as [f2 st2]. simpl in Hcalls2.
  rewrite Hcalls, <- app_assoc in Hcalls2. simpl in Hcalls2.
  intros Hrest. right. exists md5sum, alternate, hash1.
  split; [done|]. split; [done|]. split; [done|]. split; [congruence|].
  rewrite <- Hcalls2. revert Hrest.
  destruct (get_file_hash f2.1 (fs st2)); [|by intros [= <- <-]].
  destruct (negb _); [by intros [= <- <-]|].
  by intros Htry%Hproceed.
Qed.

End install_extras.

(** The sample with an install script that fails. *)
Definition failing_script : JFrogInstall :=
  {| manifest := sample_manifest;
     manifest_url := manifest_url sample_resolved;
     install_command := "false";
     check_presence_command := "";
     exec_path := "foo";
     tarball := sample_tarball;
     alternate_tarball := Some sample_mirror;
     tarball_md5sum := Some "md5:tarball";
     dependencies := [] |}.

Lemma install_source_failure_cleans_witness :
  (@install_source sample_env failing_script sample_state).1
  = Raise (InstallFailed "jfrog" "installation script returned with error code")
  ∧ tempdir_of failing_script
    ∉ Fs.dirs (fs (@install_source sample_env failing_script sample_state).2).
Proof.
  destruct (@install_source sample_env failing_script sample_state)
    as [outcome st'] eqn:Hcall.
  assert (Hfails : outcome
    = Raise (InstallFailed "jfrog" "installation script returned with error code")).
  { vm_compute in Hcall. by injection Hcall as <- _. }
  subst outcome. split; [done|].
  apply (@install_source_failure_cleans sample_env failing_script sample_state st' _ Hcall).
  by left.
Defined.

Lemma install_source_success_leaves_nothing_witness :
  Fs.path_exists "pkgs/foo/1.0/foo/install.sh"
    (fs (@install_source sample_env sample_resolved sample_state).2) = false.
Proof.
  destruct (@install_source sample_env sample_resolved sample_state)
    as [outcome st'] eqn:Hcall.
  assert (Hok : outcome = Ok ()).
  { vm_compute in Hcall. by injection Hcall as <- _. }
  subst outcome.
  apply (@install_source_success_leaves_nothing sample_env sample_resolved
           sample_state st' _ Hcall).
  vm_compute. reflexivity.
Defined.

(** A tarball that the server does not have. *)
Definition missing : JFrogInstall :=
  {| manifest := sample_manifest;
     manifest_url := manifest_url sample_resolved;
     install_command := "make install";
     check_presence_command := "";
     exec_path := ".";
     tarball := "https://artifactory.example.org/artifactory/ros/pkgs/foo/2.0/foo.tar.gz";
     alternate_tarball := Some sample_mirror;
     tarball_md5sum := Some "md5:tarball";
     dependencies := [] |}.

Lemma install_source_download_failed_witness :
  (@install_source sample_env missing sample_state).1 = Raise AssertionError.
Proof.
  rewrite (@install_source_download_failed sample_env missing sample_state "ros" eq_refl);
    [reflexivity|].
  vm_compute. discriminate.
Defined.

Lemma install_source_calls_witness :
  jf_calls (@install_source sample_env unmirrored sample_state).2
  = ["ros/pkgs/foo/1.0/foo.tar.gz"].
Proof.
  destruct (@install_source sample_env unmirrored sample_state)
    as [outcome st'] eqn:Hcall.
  destruct (@install_source_calls sample_env unmirrored sample_state st' outcome "ros"
              eq_refl Hcall)
    as [Hcalls|(md5sum & alternate & hash1 & _ & Hnone & _)];
    [exact Hcalls|discriminate Hnone].
Defined.

End InstallExtras.
